(** * The training / evaluation / checkpoint loop of [main.py]

    A shallow embedding of the core of [main.py]: the metric accumulation of
    [train] and [test], the best-accuracy bookkeeping and checkpoint rotation
    of [test] and [save_checkpoint], the resume block and the epoch loop with
    its CSV log.

    What the script takes from its collaborators (the network, the loaders,
    the optimiser, the clock) enters the embedding as data: a batch is the
    four numbers the loop body reads from it, and an epoch is the batches of
    its two passes together with the parameter blobs the network and the
    optimiser hold afterwards.  The script's own state (its globals, the
    files under [args.save], what it printed) is threaded explicitly. *)

From Stdlib Require Import ZArith QArith Lia Ascii.
From Stdlib Require Import PrimFloat SpecFloat FloatOps FloatAxioms.
From stdpp Require Import base option list strings pretty gmap.

Local Open Scope Z_scope.

(** ** Python's numbers

    The loop mixes [int] and [float] freely ([train_loss = 0], then
    [train_loss += loss.item()]).  The operations it uses on the float side
    are collected in a class: what does not depend on rounding is proved for
    any such arithmetic.  The script runs on binary64 ([float], what CPython
    computes); exact rationals ([Q]) serve only to set a binary64 result
    beside its exact value. *)

Class Arith (num : Type) := {
  of_int : Z -> num;              (* int -> float conversion *)
  add : num -> num -> num;        (* x + y *)
  mul : num -> num -> num;        (* x * y *)
  quot : num -> num -> num;       (* x / y, for y != 0 *)
  gtb : num -> num -> bool;       (* x > y *)
  leb : num -> num -> bool;       (* x <= y *)
  is_zero : num -> bool;          (* x == 0 *)
}.

(** [int -> float] of CPython: the nearest binary64, ties to even. *)
Definition float_of_Z (z : Z) : float :=
  SF2Prim (binary_normalize prec emax z 0 false).

#[export] Instance float_arith : Arith float := {
  of_int := float_of_Z;
  add := PrimFloat.add;
  mul := PrimFloat.mul;
  quot := PrimFloat.div;
  gtb := fun x y => PrimFloat.ltb y x;
  leb := PrimFloat.leb;
  is_zero := fun x => PrimFloat.eqb x PrimFloat.zero;
}.

#[export] Instance Q_arith : Arith Q := {
  of_int := inject_Z;
  add := Qplus;
  mul := Qmult;
  quot := Qdiv;
  gtb := fun x y => negb (Qle_bool x y);
  leb := Qle_bool;
  is_zero := fun x => Qeq_bool x 0;
}.

(** ** Exceptions and results *)

Inductive exn :=
  | UnboundLocalError (name : string)
  | NameError (name : string)
  | ZeroDivisionError
  | AssertionError (msg : string)
  | FileNotFoundError (path : string)
  | OSError (path : string)
  | UnpicklingError (path : string)
  | KeyError (key : string)
  | TypeError.

Inductive res (T : Type) :=
  | Ok (v : T)
  | Raise (e : exn).
Arguments Ok {T} v.
Arguments Raise {T} e.

Definition res_bind {T U} (r : res T) (k : T -> res U) : res U :=
  match r with
  | Ok v => k v
  | Raise e => Raise e
  end.

Declare Scope res_scope.
Delimit Scope res_scope with res.
Notation "x <-? r ; k" := (res_bind r (fun x => k))
  (at level 100, r at next level, right associativity) : res_scope.

(** ** One pass over a loader *)

Section Pass.
Context {num : Type} `{Arith num}.

(** What the loop body reads from one batch: [loss.item()],
    [predicted.eq(targets).sum().item()], [targets.size(0)] and the measured
    [batch_time = time.time() - end]. *)
Record batch := Batch {
  loss_item : num;
  n_correct : Z;
  n_targets : Z;
  batch_time : num;
}.

(** Python's [x / y] on floats: a zero divisor raises. *)
Definition py_div (x y : num) : res num :=
  if is_zero y then Raise ZeroDivisionError else Ok (quot x y).

(** The locals of [train] and [test].  [batch_idx] is unbound until the
    [for] statement has assigned it once. *)
Record locals := Locals {
  loss_sum : num;
  correct : Z;
  total : Z;
  batch_time_total : num;
  batch_idx : option Z;
}.

Definition locals0 : locals :=
  {| loss_sum := of_int 0; correct := 0; total := 0;
     batch_time_total := of_int 0; batch_idx := None |}.

(** [100.*correct/total] *)
Definition accuracy_of (c t : Z) : res num :=
  py_div (mul (of_int 100) (of_int c)) (of_int t).

(** The body of the [for] statement (lines 111-120 and 142-151), for the
    batch [b] that [enumerate] numbers [i].  The two arguments of
    [progress_bar] are evaluated, and that is all the embedding keeps of the
    call. *)
Definition loop_body (l : locals) (i : Z) (b : batch) : res locals :=
  let l' := {| loss_sum := add (loss_sum l) (loss_item b);
               correct := correct l + n_correct b;
               total := total l + n_targets b;
               batch_time_total := add (batch_time_total l) (batch_time b);
               batch_idx := Some i |} in
  (_ <-? py_div (loss_sum l') (of_int (i + 1));
   _ <-? accuracy_of (correct l') (total l');
   Ok l')%res.

(** [for batch_idx, ... in enumerate(loader)], from index [i]. *)
Fixpoint for_batches (l : locals) (i : Z) (bs : list batch) : res locals :=
  match bs with
  | [] => Ok l
  | b :: bs' => (l' <-? loop_body l i b; for_batches l' (i + 1) bs')%res
  end.

(** Reading the local [batch_idx]. *)
Definition get_batch_idx (l : locals) : res Z :=
  match batch_idx l with
  | Some i => Ok i
  | None => Raise (UnboundLocalError "batch_idx")
  end.

(** The tuple both passes return (lines 122 and 176):
    [(loss/(batch_idx+1), 100.*correct/total, batch_time_total/(batch_idx+1))]. *)
Definition epoch_log (l : locals) : res (num * num * num) :=
  (i <-? get_batch_idx l;
   avg_loss <-? py_div (loss_sum l) (of_int (i + 1));
   acc <-? accuracy_of (correct l) (total l);
   j <-? get_batch_idx l;
   avg_time <-? py_div (batch_time_total l) (of_int (j + 1));
   Ok (avg_loss, acc, avg_time))%res.

End Pass.

Arguments batch num : clear implicits.
Arguments locals num : clear implicits.

(** ** Files, globals and the script's monad *)

(** Parameter sets and pickled objects are opaque. *)
Definition blob := string.

(** A module object as far as the script uses one: what [torch.save(obj)]
    writes and what [obj.state_dict()] returns. *)
Record module_obj := Module_obj {
  whole : blob;
  params : blob;
}.

Inductive pyval (num : Type) :=
  | PInt (z : Z)
  | PFloat (x : num)
  | PStr (s : string)
  | PBlob (b : blob).
Arguments PInt {num} z.
Arguments PFloat {num} x.
Arguments PStr {num} s.
Arguments PBlob {num} b.

(** What one write puts into a file: a pickled dict or object
    ([torch.save]) or one CSV row ([writerow]).  A file is the sequence of
    the writes it holds. *)
Inductive item (num : Type) :=
  | Pickled (d : gmap string (pyval num))
  | Object (b : blob)
  | CsvRow (r : list (pyval num)).
Arguments Pickled {num} d.
Arguments Object {num} b.
Arguments CsvRow {num} r.

Abbreviation file num := (list (item num)).

(** A Python dict with string keys. *)
Abbreviation dict num := (gmap string (pyval num)).

(** The calls the run makes, in order (a ghost record of control flow). *)
Inductive call :=
  | CallTrain (epoch : Z)
  | CallTest (epoch : Z)
  | CallSaveCheckpoint
  | CallLogRow (epoch : Z).

(** The state the script runs in: the directory [args.save] and its files by
    name, what was printed, the module-level names the functions read or
    rebind, and the call history.

    [model] is the binding of the global name [model].  No statement of
    [main.py] assigns it, so it is whatever [from models import *] brought
    in, if anything. *)
Record world (num : Type) := World {
  files : gmap string (file num);
  dir_exists : bool;
  read_only : string -> bool;
  stdout : list string;
  best_acc : num;
  start_epoch : Z;
  net : blob;
  optimizer : blob;
  model : option module_obj;
  history : list call;
}.
Arguments World {num}.
Arguments files {num} w.
Arguments dir_exists {num} w.
Arguments read_only {num} w.
Arguments stdout {num} w.
Arguments best_acc {num} w.
Arguments start_epoch {num} w.
Arguments net {num} w.
Arguments optimizer {num} w.
Arguments model {num} w.
Arguments history {num} w.

(** A statement: it transforms the world and returns or raises.  The world
    survives a raise, as in Python. *)
Definition stmt (num T : Type) := world num -> res T * world num.

Section Monad.
Context {num : Type}.
Local Abbreviation M := (stmt num).

Definition ret {T} (v : T) : M T := fun w => (Ok v, w).
Definition raise {T} (e : exn) : M T := fun w => (Raise e, w).
Definition lift {T} (r : res T) : M T := fun w => (r, w).

Definition bind {T U} (m : M T) (k : T -> M U) : M U :=
  fun w => match m w with
           | (Ok v, w') => k v w'
           | (Raise e, w') => (Raise e, w')
           end.

(** [try: body / except: handler] with a bare [except]. *)
Definition try_except {T} (body handler : M T) : M T :=
  fun w => match body w with
           | (Ok v, w') => (Ok v, w')
           | (Raise _, w') => handler w'
           end.

Definition get {T} (f : world num -> T) : M T := fun w => (Ok (f w), w).
Definition modify (f : world num -> world num) : M unit := fun w => (Ok tt, f w).

Definition when (b : bool) (m : M unit) : M unit := if b then m else ret tt.

End Monad.

Declare Scope M_scope.
Delimit Scope M_scope with M.
Notation "x <- m ;; k" := (bind m (fun x => k))
  (at level 100, m at next level, right associativity) : M_scope.
Notation "m ;; k" := (bind m (fun _ => k))
  (at level 100, right associativity) : M_scope.

Section World.
Context {num : Type}.
Local Abbreviation M := (stmt num).

Definition set_files (f : gmap string (file num)) (w : world num) : world num :=
  World f (dir_exists w) (read_only w) (stdout w) (best_acc w)
        (start_epoch w) (net w) (optimizer w) (model w) (history w).
Definition set_dir_exists (b : bool) (w : world num) : world num :=
  World (files w) b (read_only w) (stdout w) (best_acc w)
        (start_epoch w) (net w) (optimizer w) (model w) (history w).
Definition set_stdout (o : list string) (w : world num) : world num :=
  World (files w) (dir_exists w) (read_only w) o (best_acc w)
        (start_epoch w) (net w) (optimizer w) (model w) (history w).
Definition set_best_acc (x : num) (w : world num) : world num :=
  World (files w) (dir_exists w) (read_only w) (stdout w) x
        (start_epoch w) (net w) (optimizer w) (model w) (history w).
Definition set_start_epoch (e : Z) (w : world num) : world num :=
  World (files w) (dir_exists w) (read_only w) (stdout w) (best_acc w)
        e (net w) (optimizer w) (model w) (history w).
Definition set_net (b : blob) (w : world num) : world num :=
  World (files w) (dir_exists w) (read_only w) (stdout w) (best_acc w)
        (start_epoch w) b (optimizer w) (model w) (history w).
Definition set_optimizer (b : blob) (w : world num) : world num :=
  World (files w) (dir_exists w) (read_only w) (stdout w) (best_acc w)
        (start_epoch w) (net w) b (model w) (history w).
Definition set_history (h : list call) (w : world num) : world num :=
  World (files w) (dir_exists w) (read_only w) (stdout w) (best_acc w)
        (start_epoch w) (net w) (optimizer w) (model w) h.

Definition print (s : string) : M unit :=
  modify (fun w => set_stdout (stdout w ++ [s]) w).
Definition log_call (c : call) : M unit :=
  modify (fun w => set_history (history w ++ [c]) w).

(** A file of [args.save] can be written when the directory is there and
    the file is not write-protected. *)
Definition can_write (w : world num) (path : string) : bool :=
  dir_exists w && negb (read_only w path).

(** Opening [path] with mode ["w"] and writing [content]. *)
Definition write_file (path : string) (content : file num) : M unit :=
  fun w => if can_write w path
           then (Ok tt, set_files (<[path := content]> (files w)) w)
           else (Raise (OSError path), w).

Definition read_file (path : string) : M (file num) :=
  fun w => match files w !! path with
           | Some c => (Ok c, w)
           | None => (Raise (FileNotFoundError path), w)
           end.

(** [torch.save(obj, path)] *)
Definition torch_save (obj : item num) (path : string) : M unit :=
  write_file path [obj].

(** [torch.load(path)] *)
Definition torch_load (path : string) : M (item num) :=
  (c <- read_file path;;
   match c with
   | [Pickled d] => ret (Pickled d)
   | [Object b] => ret (Object b)
   | _ => raise (UnpicklingError path)
   end)%M.

(** [shutil.copyfile(src, dst)] *)
Definition copyfile (src dst : string) : M unit :=
  (c <- read_file src;; write_file dst c)%M.

(** [open(path, "a")] followed by one [writerow]. *)
Definition append_row (path : string) (r : list (pyval num)) : M unit :=
  fun w => if can_write w path
           then (Ok tt, set_files (<[path := default [] (files w !! path) ++ [CsvRow r]]> (files w)) w)
           else (Raise (OSError path), w).

(** [d[key]] *)
Definition getitem (d : gmap string (pyval num)) (key : string) : res (pyval num) :=
  match d !! key with
  | Some v => Ok v
  | None => Raise (KeyError key)
  end.

End World.

(** ** The script *)

Section Script.
Context {num : Type} `{Arith num}.
Local Abbreviation M := (stmt num).

(** [max(a, b)] of Python: the first argument unless the second is
    greater. *)
Definition py_max (a b : num) : num := if gtb b a then b else a.

Definition as_int (v : pyval num) : res Z :=
  match v with PInt z => Ok z | _ => Raise TypeError end.
Definition as_float (v : pyval num) : res num :=
  match v with PFloat x => Ok x | PInt z => Ok (of_int z) | _ => Raise TypeError end.
Definition as_blob (v : pyval num) : res blob :=
  match v with PBlob b => Ok b | _ => Raise TypeError end.

(** [obj[key]] on what [torch.load] returned. *)
Definition subscript (obj : item num) (key : string) : res (pyval num) :=
  match obj with
  | Pickled d => getitem d key
  | _ => Raise TypeError
  end.

(** Reading the global name [model]. *)
Definition get_model : M module_obj :=
  fun w => match model w with
           | Some m => (Ok m, w)
           | None => (Raise (NameError "model"), w)
           end.

Definition snapshot_name (epoch : Z) : string :=
  "checkpoint_" +:+ pretty epoch +:+ ".pth.tar".

(** [save_checkpoint(state, is_best, dir_path, filename='checkpoint.pth.tar')],
    lines 178-184. *)
Definition save_checkpoint (state : dict num) (is_best : bool) : M unit :=
  (log_call CallSaveCheckpoint;;
   torch_save (Pickled state) "checkpoint.pth.tar";;
   when is_best (copyfile "checkpoint.pth.tar" "model_best.pth.tar");;
   e <- lift (v <-? getitem state "epoch"; as_int v)%res;;
   when ((e - 1) mod 10 =? 0)
        (copyfile "checkpoint.pth.tar" (snapshot_name (e - 1))))%M.

(** The dict [test] hands to [save_checkpoint], lines 167-174. *)
Definition checkpoint_state (epoch : Z) (arch : string) (w : world num) : dict num :=
  <["epoch" := PInt (epoch + 1)]>
  (<["arch" := PStr arch]>
  (<["state_dict" := PBlob (net w)]>
  (<["best_acc1" := PFloat (best_acc w)]>
  (<["optimizer" := PBlob (optimizer w)]> ∅)))).

(** The two [try] statements of lines 158-165. *)
Definition exports : M unit :=
  (try_except
     (m <- get_model;; torch_save (Object (whole m)) "model.pth")
     (print "WARNING: Unable to save model.pth");;
   try_except
     (m <- get_model;; torch_save (Object (params m)) "weights.pth")
     (print "WARNING: Unable to save weights.pth"))%M.

(** Lines 153-174 of [test]: the bookkeeping for the accuracy [acc] of the
    pass of [epoch]. *)
Definition record (arch : string) (epoch : Z) (acc : num) : M unit :=
  (old <- get best_acc;;
   let is_best := gtb acc old in
   modify (set_best_acc (py_max acc old));;
   when is_best exports;;
   state <- get (checkpoint_state epoch arch);;
   save_checkpoint state is_best)%M.

(** [train(epoch)], lines 90-122, over the batches [bs] of [trainloader];
    [net'] and [opt'] are the parameters and the optimiser that the
    [optimizer.step()] calls of the pass leave behind. *)
Definition train (bs : list (batch num)) (net' opt' : blob) (epoch : Z)
  : M (num * num * num) :=
  (log_call (CallTrain epoch);;
   print (String "010"%char "Epoch: " +:+ pretty epoch);;
   l <- lift (for_batches locals0 0 bs);;
   modify (set_net net');;
   modify (set_optimizer opt');;
   lift (epoch_log l))%M.

(** [test(epoch)], lines 124-176, over the batches [bs] of [testloader]. *)
Definition test (bs : list (batch num)) (arch : string) (epoch : Z)
  : M (num * num * num) :=
  (log_call (CallTest epoch);;
   l <- lift (for_batches locals0 0 bs);;
   acc <- lift (accuracy_of (correct l) (total l));;
   record arch epoch acc;;
   lift (epoch_log l))%M.

(** The resume block, lines 75-82. *)
Definition resume_block : M unit :=
  (print "==> Resuming from checkpoint..";;
   d <- get dir_exists;;
   (if d : bool then ret tt
    else raise (AssertionError "Error: no checkpoint directory found!"));;
   checkpoint <- torch_load "checkpoint.pth";;
   sd <- lift (v <-? subscript checkpoint "net"; as_blob v)%res;;
   modify (set_net sd);;
   a <- lift (v <-? subscript checkpoint "acc"; as_float v)%res;;
   modify (set_best_acc a);;
   e <- lift (v <-? subscript checkpoint "epoch"; as_int v)%res;;
   modify (set_start_epoch e))%M.

(** What one epoch takes from outside the script. *)
Record epoch_data := Epoch_data {
  train_batches : list (batch num);
  net_after : blob;
  optimizer_after : blob;
  test_batches : list (batch num);
  elapsed : num;        (* [time.time() - start_log_time] at the log row *)
}.

Record args := Args {
  arch : string;
  resume : bool;
}.

Definition log_header : list (pyval num) :=
  [PStr "epoch"; PStr "train_loss"; PStr "train_top1_acc"; PStr "train_time";
   PStr "test_loss"; PStr "test_top1_acc"; PStr "test_time";
   PStr "cumulative_time"].

Definition triple (t : num * num * num) : list (pyval num) :=
  let '(a, b, c) := t in [PFloat a; PFloat b; PFloat c].

(** The row of line 203:
    [(epoch,) + train_epoch_log + test_epoch_log + (time.time() - start_log_time,)]. *)
Definition log_row (epoch : Z) (tr te : num * num * num) (t : num)
  : list (pyval num) :=
  PInt epoch :: triple tr ++ triple te ++ [PFloat t].

(** The body of the epoch loop, lines 197-203. *)
Definition epoch_body (a : args) (data : Z -> epoch_data) (epoch : Z) : M unit :=
  (let d := data epoch in
   train_epoch_log <- train (train_batches d) (net_after d) (optimizer_after d) epoch;;
   test_epoch_log <- test (test_batches d) (arch a) epoch;;
   log_call (CallLogRow epoch);;
   append_row "train_log.csv"
              (log_row epoch train_epoch_log test_epoch_log (elapsed d)))%M.

(** [for epoch in es: body(epoch)] *)
Fixpoint for_each (es : list Z) (body : Z -> M unit) : M unit :=
  match es with
  | [] => ret tt
  | e :: es' => (body e;; for_each es' body)%M
  end.

(** [range(lo, hi)] *)
Definition range (lo hi : Z) : list Z := seqZ lo (hi - lo).

(** Lines 186-203: the directory, the log file and the epoch loop. *)
Definition training_run (a : args) (data : Z -> epoch_data) : M unit :=
  (d <- get dir_exists;;
   when (negb d) (modify (set_dir_exists true));;
   write_file "train_log.csv" [CsvRow log_header];;
   start <- get start_epoch;;
   for_each (range start (start + 200)) (epoch_body a data))%M.

(** The module-level statements from line 28 on, for the network [net0]
    that line 69 builds and the optimiser [opt0] of line 87. *)
Definition main (a : args) (net0 opt0 : blob) (data : Z -> epoch_data) : M unit :=
  (modify (set_best_acc (of_int 0));;
   modify (set_start_epoch 0);;
   print "==> Preparing data..";;
   print "==> Building model..";;
   modify (set_net net0);;
   when (resume a) resume_block;;
   modify (set_optimizer opt0);;
   training_run a data)%M.

End Script.

Arguments epoch_data num : clear implicits.

(** ** What a pass computes *)

Section PassFacts.
Context {num : Type} `{Arith num}.

(** The tuple a pass over [bs] returns, or what it raises. *)
Definition metrics (bs : list (batch num)) : res (num * num * num) :=
  (l <-? for_batches locals0 0 bs; epoch_log l)%res.

(** The running sums, in the order the loop adds them up. *)
Definition sum_from (f : batch num -> num) (x : num) (bs : list (batch num)) : num :=
  fold_left (fun s b => add s (f b)) bs x.
Definition count_from (f : batch num -> Z) (z : Z) (bs : list (batch num)) : Z :=
  fold_left (fun s b => s + f b) bs z.

Definition loss_total := sum_from loss_item (of_int 0).
Definition time_total := sum_from batch_time (of_int 0).
Definition correct_count := count_from n_correct 0.
Definition total_count := count_from n_targets 0.
Definition batch_count (bs : list (batch num)) : Z := Z.of_nat (length bs).

(** No division of the pass meets a zero divisor: after each batch, the
    number of batches so far and the number of samples so far convert to a
    non-zero float. *)
Fixpoint divisors_ok (i t : Z) (bs : list (batch num)) : bool :=
  match bs with
  | [] => true
  | b :: bs' =>
      negb (is_zero (of_int (i + 1)))
      && negb (is_zero (of_int (t + n_targets b)))
      && divisors_ok (i + 1) (t + n_targets b) bs'
  end.

Lemma py_div_ok x y : is_zero y = false -> py_div x y = Ok (quot x y).
Proof. unfold py_div. now intros ->. Qed.

Lemma for_batches_snoc l i bs b :
  for_batches l i (bs ++ [b]) =
  (l' <-? for_batches l i bs; loop_body l' (i + batch_count bs) b)%res.
Proof.
  revert l i. induction bs as [|a bs IH]; intros l i; simpl.
  - unfold batch_count; simpl. rewrite Z.add_0_r.
    destruct (loop_body l i b); reflexivity.
  - destruct (loop_body l i a) as [l1|e]; simpl; [|reflexivity].
    rewrite IH. unfold batch_count; simpl length.
    replace (i + 1 + Z.of_nat (length bs)) with (i + Z.of_nat (S (length bs))) by lia.
    reflexivity.
Qed.

(** The state of the locals after a loop that met no zero divisor. *)
Lemma for_batches_ok bs : forall l i,
  divisors_ok i (total l) bs = true ->
  for_batches l i bs =
  Ok {| loss_sum := sum_from loss_item (loss_sum l) bs;
        correct := count_from n_correct (correct l) bs;
        total := count_from n_targets (total l) bs;
        batch_time_total := sum_from batch_time (batch_time_total l) bs;
        batch_idx := match bs with
                     | [] => batch_idx l
                     | _ => Some (i + batch_count bs - 1)
                     end |}.
Proof.
  induction bs as [|b bs IH]; intros l i Hok.
  - destruct l; reflexivity.
  - simpl in Hok.
    apply andb_prop in Hok as [Hok Hrest]. apply andb_prop in Hok as [Hi Ht].
    apply negb_true_iff in Hi, Ht.
    simpl for_batches. unfold loop_body, accuracy_of; simpl.
    rewrite (py_div_ok _ _ Hi), (py_div_ok _ _ Ht); simpl.
    rewrite IH by exact Hrest. simpl.
    f_equal. f_equal.
    destruct bs as [|b' bs]; unfold batch_count; simpl length; f_equal; lia.
Qed.

(** The last divisors of the loop are the divisors of the returned tuple. *)
Lemma divisors_ok_last bs : forall i t,
  bs <> [] -> divisors_ok i t bs = true ->
  is_zero (of_int (i + batch_count bs)) = false /\
  is_zero (of_int (count_from n_targets t bs)) = false.
Proof.
  induction bs as [|b bs IH]; intros i t Hne Hok; [congruence|].
  simpl in Hok.
  apply andb_prop in Hok as [Hok Hrest]. apply andb_prop in Hok as [Hi Ht].
  apply negb_true_iff in Hi, Ht.
  destruct bs as [|b' bs].
  - unfold batch_count; simpl. split; assumption.
  - destruct (IH (i + 1) (t + n_targets b)) as [H1 H2]; [congruence|assumption|].
    split; [|exact H2].
    unfold batch_count in *; simpl length in *.
    replace (i + Z.of_nat (S (S (length bs)))) with (i + 1 + Z.of_nat (S (length bs))) by lia.
    exact H1.
Qed.

Lemma metrics_ok bs :
  bs <> [] -> divisors_ok 0 0 bs = true ->
  metrics bs =
  Ok (quot (loss_total bs) (of_int (batch_count bs)),
      quot (mul (of_int 100) (of_int (correct_count bs))) (of_int (total_count bs)),
      quot (time_total bs) (of_int (batch_count bs))).
Proof.
  intros Hne Hok. unfold metrics.
  rewrite (for_batches_ok bs locals0 0 Hok). simpl.
  destruct (divisors_ok_last bs 0 0 Hne Hok) as [Hn Ht].
  destruct bs as [|b bs]; [congruence|].
  unfold epoch_log, get_batch_idx, accuracy_of; simpl.
  replace (0 + batch_count (b :: bs) - 1 + 1) with (0 + batch_count (b :: bs)) by lia.
  rewrite !(py_div_ok _ _ Hn); simpl.
  unfold total_count. simpl in Ht |- *. rewrite (py_div_ok _ _ Ht); simpl.
  reflexivity.
Qed.

(** With no batch, [train] fails on its unbound [batch_idx]. *)
Lemma metrics_nil : metrics [] = Raise (UnboundLocalError "batch_idx").
Proof. reflexivity. Qed.

End PassFacts.

(** ** File names *)

Lemma append_length (s t : string) :
  String.length (s +:+ t) = (String.length s + String.length t)%nat.
Proof. induction s as [|c s IH]; simpl; [reflexivity|]. now rewrite IH. Qed.

Lemma append_cancel_r (t s1 s2 : string) : s1 +:+ t = s2 +:+ t -> s1 = s2.
Proof.
  revert s2. induction s1 as [|c s1 IH]; intros [|c' s2] Heq; simpl in Heq.
  - reflexivity.
  - apply (f_equal String.length) in Heq.
    rewrite !append_length in Heq. simpl in Heq. lia.
  - apply (f_equal String.length) in Heq.
    rewrite !append_length in Heq. simpl in Heq. lia.
  - injection Heq as -> Heq. f_equal. now apply IH.
Qed.

(** Two epochs never share a snapshot file. *)
Lemma snapshot_name_inj e e' : snapshot_name e = snapshot_name e' -> e = e'.
Proof.
  unfold snapshot_name. intros Heq.
  apply (inj (String.app "checkpoint_")) in Heq.
  apply append_cancel_r in Heq.
  exact (pretty_Z_inj _ _ Heq).
Qed.

Lemma snapshot_name_fresh e :
  snapshot_name e <> "checkpoint.pth.tar" /\
  snapshot_name e <> "model_best.pth.tar" /\
  snapshot_name e <> "model.pth" /\
  snapshot_name e <> "weights.pth" /\
  snapshot_name e <> "train_log.csv" /\
  snapshot_name e <> "checkpoint.pth".
Proof. unfold snapshot_name; simpl. repeat split; discriminate. Qed.

(** ** What one checkpoint call does *)

(** Unfolding of the monad and of the field updates. *)
Ltac unfold_world :=
  unfold set_files, set_dir_exists, set_stdout, set_best_acc, set_start_epoch,
    set_net, set_optimizer, set_history in *.
Ltac unfold_stmt :=
  unfold log_call, print, torch_save, torch_load, copyfile, append_row,
    write_file, read_file, get_model, try_except, bind, modify, get, when,
    lift, ret, raise, can_write in *;
  unfold_world.

Section RecordFacts.
Context {num : Type} `{Arith num}.
Implicit Types (w : world num) (fs : gmap string (file num)).

(** Everything the run must be able to write, apart from the two exports. *)
Definition core_writable w : Prop :=
  dir_exists w = true /\
  read_only w "checkpoint.pth.tar" = false /\
  read_only w "model_best.pth.tar" = false /\
  read_only w "train_log.csv" = false /\
  forall e, read_only w (snapshot_name e) = false.

(** The files [save_checkpoint] leaves behind. *)
Definition saved_files (state : dict num) (is_best : bool) (e : Z) fs
  : gmap string (file num) :=
  let fs1 := <["checkpoint.pth.tar" := [Pickled state]]> fs in
  let fs2 := if is_best then <["model_best.pth.tar" := [Pickled state]]> fs1 else fs1 in
  if (e - 1) mod 10 =? 0 then <[snapshot_name (e - 1) := [Pickled state]]> fs2 else fs2.

Lemma save_checkpoint_run state is_best e w :
  core_writable w ->
  state !! "epoch" = Some (PInt e) ->
  save_checkpoint state is_best w =
  (Ok tt, set_files (saved_files state is_best e (files w))
                    (set_history (history w ++ [CallSaveCheckpoint]) w)).
Proof.
  intros (Hd & Hc & Hb & _ & Hs) He.
  unfold save_checkpoint, saved_files, getitem. unfold_stmt.
  simpl. rewrite Hd, Hc, He. simpl.
  destruct is_best; simpl.
  - rewrite lookup_insert_eq. simpl. rewrite Hb. simpl.
    destruct ((e - 1) mod 10 =? 0); simpl; [|reflexivity].
    rewrite lookup_insert_ne by discriminate. rewrite lookup_insert_eq.
    simpl. rewrite Hs. reflexivity.
  - destruct ((e - 1) mod 10 =? 0); simpl; [|reflexivity].
    rewrite lookup_insert_eq. simpl. rewrite Hs. reflexivity.
Qed.

(** The exports never raise, and touch nothing but their two files and the
    console. *)
Lemma exports_ok w : fst (exports w) = Ok tt.
Proof.
  unfold exports. unfold_stmt.
  destruct (model w) as [m|] eqn:Hm; simpl; rewrite ?Hm; simpl; [|reflexivity].
  destruct (dir_exists w && negb (read_only w "model.pth")); simpl;
    rewrite ?Hm; simpl;
    destruct (dir_exists w && negb (read_only w "weights.pth")); reflexivity.
Qed.

Lemma exports_frame w :
  let w' := snd (exports w) in
  dir_exists w' = dir_exists w /\ read_only w' = read_only w /\
  best_acc w' = best_acc w /\ start_epoch w' = start_epoch w /\
  net w' = net w /\ optimizer w' = optimizer w /\ model w' = model w /\
  history w' = history w /\
  forall p, p <> "model.pth" -> p <> "weights.pth" -> files w' !! p = files w !! p.
Proof.
  unfold exports. unfold_stmt.
  destruct (model w) as [m|] eqn:Hm; simpl.
  - destruct (dir_exists w && negb (read_only w "model.pth")) eqn:H1; simpl;
      rewrite ?Hm; simpl;
      destruct (dir_exists w && negb (read_only w "weights.pth")) eqn:H2; simpl;
      repeat split; try reflexivity; intros p Hp1 Hp2;
      rewrite ?lookup_insert_ne by congruence; reflexivity.
  - rewrite ?Hm. simpl. repeat split; reflexivity.
Qed.

Lemma exports_core_writable w : core_writable w -> core_writable (snd (exports w)).
Proof.
  destruct (exports_frame w) as (Hd & Hr & _). unfold core_writable.
  now rewrite Hd, Hr.
Qed.

(** [record] as one step: the new best, the exports on a best epoch, then
    [save_checkpoint]. *)
Definition after_exports (is_best : bool) w : world num :=
  if is_best then snd (exports w) else w.

Lemma record_unfold arch epoch acc w :
  record arch epoch acc w =
  let is_best := gtb acc (best_acc w) in
  let w1 := after_exports is_best (set_best_acc (py_max acc (best_acc w)) w) in
  save_checkpoint (checkpoint_state epoch arch w1) is_best w1.
Proof.
  unfold record, after_exports. unfold_stmt. simpl.
  destruct (gtb acc (best_acc w)); simpl; [|reflexivity].
  pose proof (exports_ok (set_best_acc (py_max acc (best_acc w)) w)) as Hok.
  destruct (exports _) as [r w']. simpl in Hok. subst r. reflexivity.
Qed.

End RecordFacts.

Section RecordRun.
Context {num : Type} `{Arith num}.
Implicit Types (w : world num) (cs : list (Z * num)).

(** The world a successful [record] leaves behind. *)
Definition recorded (arch : string) (epoch : Z) (acc : num) w : world num :=
  let is_best := gtb acc (best_acc w) in
  let w1 := after_exports is_best (set_best_acc (py_max acc (best_acc w)) w) in
  set_files (saved_files (checkpoint_state epoch arch w1) is_best (epoch + 1) (files w1))
            (set_history (history w1 ++ [CallSaveCheckpoint]) w1).

Lemma after_exports_frame b w :
  let w' := after_exports b w in
  dir_exists w' = dir_exists w /\ read_only w' = read_only w /\
  best_acc w' = best_acc w /\ start_epoch w' = start_epoch w /\
  net w' = net w /\ optimizer w' = optimizer w /\ model w' = model w /\
  history w' = history w /\
  forall p, p <> "model.pth" -> p <> "weights.pth" -> files w' !! p = files w !! p.
Proof.
  destruct b; simpl; [apply exports_frame|]. repeat split; reflexivity.
Qed.

Lemma record_run arch epoch acc w :
  core_writable w ->
  record arch epoch acc w = (Ok tt, recorded arch epoch acc w).
Proof.
  intros Hw. rewrite record_unfold. cbv zeta. unfold recorded.
  apply save_checkpoint_run.
  - destruct (after_exports_frame (gtb acc (best_acc w))
                (set_best_acc (py_max acc (best_acc w)) w)) as (Hd & Hr & _).
    unfold core_writable. rewrite Hd, Hr. exact Hw.
  - unfold checkpoint_state. now rewrite lookup_insert_eq.
Qed.

Lemma recorded_frame arch epoch acc w :
  let w' := recorded arch epoch acc w in
  dir_exists w' = dir_exists w /\ read_only w' = read_only w /\
  best_acc w' = py_max acc (best_acc w) /\ start_epoch w' = start_epoch w /\
  net w' = net w /\ optimizer w' = optimizer w /\ model w' = model w /\
  history w' = history w ++ [CallSaveCheckpoint].
Proof.
  unfold recorded.
  destruct (after_exports_frame (gtb acc (best_acc w))
              (set_best_acc (py_max acc (best_acc w)) w))
    as (Hd & Hr & Hb & Hs & Hn & Ho & Hm & Hh & _).
  simpl. rewrite Hd, Hr, Hb, Hs, Hn, Ho, Hm, Hh. repeat split; reflexivity.
Qed.

Lemma recorded_core_writable arch epoch acc w :
  core_writable w -> core_writable (recorded arch epoch acc w).
Proof.
  destruct (recorded_frame arch epoch acc w) as (Hd & Hr & _).
  unfold core_writable. now rewrite Hd, Hr.
Qed.

(** The dict the call pickles. *)
Definition recorded_state (arch : string) (epoch : Z) (acc : num) w : dict num :=
  checkpoint_state epoch arch (set_best_acc (py_max acc (best_acc w)) w).

Lemma checkpoint_state_ext epoch arch w w' :
  net w' = net w -> best_acc w' = best_acc w -> optimizer w' = optimizer w ->
  checkpoint_state epoch arch w' = checkpoint_state epoch arch w.
Proof. unfold checkpoint_state. now intros -> -> ->. Qed.

Lemma saved_files_lookup (st : dict num) (b : bool) e fs p :
  saved_files st b e fs !! p =
  if decide (p = snapshot_name (e - 1) /\ (e - 1) mod 10 = 0) then Some [Pickled st]
  else if decide (p = "model_best.pth.tar" /\ b = true) then Some [Pickled st]
  else if decide (p = "checkpoint.pth.tar") then Some [Pickled st]
  else fs !! p.
Proof.
  unfold saved_files.
  destruct (snapshot_name_fresh (e - 1)) as (Hc & Hm & _).
  destruct (Z.eqb_spec ((e - 1) mod 10) 0) as [Hz|Hz]; destruct b;
    rewrite ?lookup_insert; repeat case_decide; try reflexivity;
    exfalso; subst; intuition congruence.
Qed.

Lemma recorded_files arch epoch acc w :
  let st := recorded_state arch epoch acc w in
  let fs' := files (recorded arch epoch acc w) in
  fs' !! "checkpoint.pth.tar" = Some [Pickled st] /\
  fs' !! "model_best.pth.tar" =
    (if gtb acc (best_acc w) then Some [Pickled st]
     else files w !! "model_best.pth.tar") /\
  (forall k, fs' !! snapshot_name k =
     if decide (k = epoch /\ epoch mod 10 = 0) then Some [Pickled st]
     else files w !! snapshot_name k) /\
  fs' !! "train_log.csv" = files w !! "train_log.csv".
Proof.
  unfold recorded, recorded_state. cbv zeta. simpl files.
  set (b := gtb acc (best_acc w)).
  set (w0 := set_best_acc (py_max acc (best_acc w)) w).
  destruct (after_exports_frame b w0) as (_ & _ & Hb & _ & Hn & Ho & _ & _ & Hf).
  rewrite (checkpoint_state_ext epoch arch w0 _ Hn Hb Ho).
  set (st := checkpoint_state epoch arch w0).
  replace (epoch + 1 - 1) with epoch by lia.
  assert (Hfree := snapshot_name_fresh).
  split; [|split; [|split]]; [| | intros k |]; rewrite saved_files_lookup;
    replace (epoch + 1 - 1) with epoch by lia.
  - destruct (Hfree epoch) as (? & _).
    repeat case_decide; try reflexivity; exfalso; intuition congruence.
  - destruct (Hfree epoch) as (_ & ? & _).
    destruct b; repeat case_decide; try reflexivity;
      try (exfalso; intuition congruence).
    all: try now rewrite Hf.
  - destruct (Hfree k) as (Hk1 & Hk2 & Hk3 & Hk4 & _).
    repeat case_decide; try reflexivity;
      try (exfalso; intuition congruence).
    all: try (exfalso;
              match goal with
              | Hk : snapshot_name _ = snapshot_name _ /\ _ |- _ =>
                  destruct Hk as [Hk ?]; apply snapshot_name_inj in Hk; tauto
              end).
    all: try (exfalso;
              match goal with
              | Hk : @eq Z _ _ /\ _, Hn : ~ (_ /\ _) |- _ =>
                  destruct Hk as [? ?]; subst; apply Hn; tauto
              end).
    all: try now rewrite Hf.
  - destruct (Hfree epoch) as (_ & _ & _ & _ & ? & _).
    repeat case_decide; try reflexivity; try (exfalso; intuition congruence).
    all: try now rewrite Hf.
Qed.

End RecordRun.

(** ** Consecutive checkpoint calls *)

Section Records.
Context {num : Type} `{Arith num}.
Implicit Types (w : world num) (cs : list (Z * num)).

(** [record] called for each (epoch, accuracy) of [cs] in turn. *)
Fixpoint records (arch : string) cs : stmt num unit :=
  match cs with
  | [] => ret tt
  | c :: cs' => (record arch c.1 c.2;; records arch cs')%M
  end.

(** The world after that many successful calls. *)
Definition recorded_all (arch : string) cs w : world num :=
  fold_left (fun w c => recorded arch c.1 c.2 w) cs w.

Lemma recorded_all_core_writable arch cs : forall w,
  core_writable w -> core_writable (recorded_all arch cs w).
Proof.
  induction cs as [|c cs IH]; intros w Hw; simpl; [exact Hw|].
  apply IH. now apply recorded_core_writable.
Qed.

Lemma records_run arch cs : forall w,
  core_writable w -> records arch cs w = (Ok tt, recorded_all arch cs w).
Proof.
  induction cs as [|c cs IH]; intros w Hw; simpl; [reflexivity|].
  unfold bind. rewrite (record_run _ _ _ _ Hw).
  apply IH. now apply recorded_core_writable.
Qed.

Lemma recorded_all_app arch cs1 cs2 w :
  recorded_all arch (cs1 ++ cs2) w = recorded_all arch cs2 (recorded_all arch cs1 w).
Proof. unfold recorded_all. apply fold_left_app. Qed.

(** A checkpoint call keeps the files of earlier snapshots and the log. *)
Lemma recorded_all_snapshot arch cs : forall w k,
  is_Some (files (recorded_all arch cs w) !! snapshot_name k) <->
  is_Some (files w !! snapshot_name k) \/ (k ∈ cs.*1 /\ k mod 10 = 0).
Proof.
  induction cs as [|c cs IH]; intros w k; simpl.
  - rewrite elem_of_nil. tauto.
  - rewrite IH. destruct (recorded_files arch c.1 c.2 w) as (_ & _ & Hs & _).
    rewrite Hs, elem_of_cons.
    destruct (decide (k = c.1 /\ c.1 mod 10 = 0)) as [[-> Hz]|Hk].
    + split; [|eauto]. intros _. right. tauto.
    + split.
      * intros [?|[? ?]]; [tauto|]. right. tauto.
      * intros [?|[[Hk'|?] Hz]]; [tauto| |tauto]. exfalso. subst. tauto.
Qed.

End Records.

(** ** Order on accuracies *)

(** What the comparisons of [test] need in order to speak of a maximum.
    [leb x x] fails only for a value that compares with nothing (a NaN). *)
Class ArithOrder (num : Type) `{Arith num} := {
  leb_trans x y z : leb x y = true -> leb y z = true -> leb x z = true;
  leb_total x y : leb x x = true -> leb y y = true ->
                  leb x y = true \/ leb y x = true;
  leb_refl_of x y : leb x y = true -> leb x x = true /\ leb y y = true;
  gtb_leb x y : leb x x = true -> leb y y = true -> gtb x y = negb (leb x y);
}.

Section BestAccuracy.
Context {num : Type} `{ArithOrder num}.
Implicit Types (w : world num) (cs : list (Z * num)).

(** An accuracy: a percentage. *)
Definition in_range (x : num) : Prop :=
  leb (of_int 0) x = true /\ leb x (of_int 100) = true.

Lemma in_range_refl x : in_range x -> leb x x = true.
Proof. intros [Hlo _]. now apply leb_refl_of in Hlo. Qed.

Lemma py_max_cases (a b : num) : py_max a b = a \/ py_max a b = b.
Proof. unfold py_max. destruct (gtb b a); auto. Qed.

Lemma py_max_upper (a b : num) :
  leb a a = true -> leb b b = true ->
  leb a (py_max a b) = true /\ leb b (py_max a b) = true.
Proof.
  intros Ha Hb. unfold py_max. rewrite (gtb_leb b a Hb Ha).
  destruct (leb b a) eqn:Hba; simpl; [tauto|].
  split; [|exact Hb].
  destruct (leb_total a b Ha Hb) as [?|?]; congruence.
Qed.

Lemma recorded_all_best arch cs : forall w,
  leb (best_acc w) (best_acc w) = true ->
  Forall (fun c => leb c.2 c.2 = true) cs ->
  let best := best_acc (recorded_all arch cs w) in
  best ∈ best_acc w :: cs.*2 /\
  forall x, x ∈ best_acc w :: cs.*2 -> leb x best = true.
Proof.
  induction cs as [|c cs IH]; intros w Hw Hcs; simpl.
  - split; [left|]. intros x Hx. apply list_elem_of_singleton in Hx. now subst.
  - inversion Hcs as [|? ? Hc Hcs']; subst.
    destruct (recorded_frame arch c.1 c.2 w) as (_ & _ & Hb & _).
    destruct (py_max_upper c.2 (best_acc w) Hc Hw) as [Hu1 Hu2].
    assert (Hw1 : leb (best_acc (recorded arch c.1 c.2 w))
                      (best_acc (recorded arch c.1 c.2 w)) = true).
    { rewrite Hb. destruct (py_max_cases c.2 (best_acc w)) as [-> | ->]; assumption. }
    destruct (IH _ Hw1 Hcs') as [Hin Hub]. rewrite Hb in Hin, Hub.
    split.
    + apply elem_of_cons in Hin as [Hin|Hin].
      * rewrite Hin. destruct (py_max_cases c.2 (best_acc w)) as [-> | ->].
        -- right; left.
        -- left.
      * right; right; exact Hin.
    + intros x Hx.
      assert (Htop : leb (py_max c.2 (best_acc w))
                         (best_acc (recorded_all arch cs (recorded arch c.1 c.2 w))) = true)
        by (apply Hub; left).
      apply elem_of_cons in Hx as [->|Hx]; [now apply (leb_trans _ _ _ Hu2)|].
      apply elem_of_cons in Hx as [->|Hx]; [now apply (leb_trans _ _ _ Hu1)|].
      apply Hub. now right.
Qed.

End BestAccuracy.

(** ** The two arithmetics are ordered *)

#[export] Instance Q_order : ArithOrder Q.
Proof.
  split; simpl.
  - intros x y z Hxy Hyz. apply Qle_bool_iff in Hxy, Hyz. apply Qle_bool_iff.
    now apply Qle_trans with y.
  - intros x y _ _. destruct (Qlt_le_dec x y) as [Hlt|Hle].
    + left. apply Qle_bool_iff. now apply Qlt_le_weak.
    + right. now apply Qle_bool_iff.
  - intros x y _. split; apply Qle_bool_iff; apply Qle_refl.
  - reflexivity.
Qed.

(** The position of a binary64 value on the extended real line: the sign
    class first, then exponent and mantissa.  A NaN has none. *)
Definition rank (f : spec_float) : option (Z * Z * Z) :=
  match f with
  | S754_nan => None
  | S754_infinity true => Some (-2, 0, 0)
  | S754_finite true m e => Some (-1, - e, - Z.pos m)
  | S754_zero _ => Some (0, 0, 0)
  | S754_finite false m e => Some (1, e, Z.pos m)
  | S754_infinity false => Some (2, 0, 0)
  end.

Definition lex_le (a b : Z * Z * Z) : Prop :=
  let '(a1, a2, a3) := a in
  let '(b1, b2, b3) := b in
  a1 < b1 \/ (a1 = b1 /\ (a2 < b2 \/ (a2 = b2 /\ a3 <= b3))).

Definition lex_lt (a b : Z * Z * Z) : Prop :=
  let '(a1, a2, a3) := a in
  let '(b1, b2, b3) := b in
  a1 < b1 \/ (a1 = b1 /\ (a2 < b2 \/ (a2 = b2 /\ a3 < b3))).

Lemma SFcompare_rank f g :
  match SFcompare f g with
  | None => rank f = None \/ rank g = None
  | Some c =>
      exists a b, rank f = Some a /\ rank g = Some b /\
        match c with
        | Lt => lex_lt a b
        | Eq => a = b
        | Gt => lex_lt b a
        end
  end.
Proof.
  destruct f as [s|s| |s m e], g as [s'|s'| |s' m' e']; simpl; auto;
    try destruct s; try destruct s'; simpl;
    try (eexists _, _; split; [reflexivity|split; [reflexivity|]]; simpl; try reflexivity; lia).
  all: eexists _, _; (split; [reflexivity|split; [reflexivity|]]).
  all: destruct (Z.compare_spec e e') as [He|He|He]; simpl; try lia.
  all: change (Pos.compare_cont Eq m m') with (Pos.compare m m').
  all: destruct (Pos.compare_spec m m') as [Hm|Hm|Hm]; simpl; subst; try reflexivity; lia.
Qed.

Lemma lex_lt_le a b : lex_lt a b -> lex_le a b.
Proof. destruct a as [[? ?] ?], b as [[? ?] ?]; simpl; lia. Qed.

Lemma SFleb_rank f g :
  SFleb f g = true <-> exists a b, rank f = Some a /\ rank g = Some b /\ lex_le a b.
Proof.
  unfold SFleb. pose proof (SFcompare_rank f g) as Hc.
  destruct (SFcompare f g) as [[| |]|].
  - destruct Hc as (a & b & Ha & Hb & ->). split; [|reflexivity].
    intros _. exists b, b. repeat split; try assumption.
    destruct b as [[? ?] ?]; simpl; lia.
  - destruct Hc as (a & b & Ha & Hb & Hlt). split; [|reflexivity].
    intros _. exists a, b. auto using lex_lt_le.
  - destruct Hc as (a & b & Ha & Hb & Hlt). split; [discriminate|].
    intros (a' & b' & Ha' & Hb' & Hle). exfalso.
    rewrite Ha in Ha'. rewrite Hb in Hb'. injection Ha' as <-. injection Hb' as <-.
    destruct a as [[? ?] ?], b as [[? ?] ?]; simpl in *; lia.
  - split; [discriminate|]. intros (a & b & Ha & Hb & _).
    destruct Hc; congruence.
Qed.

Lemma SFltb_rank f g :
  SFltb f g = true <-> exists a b, rank f = Some a /\ rank g = Some b /\ lex_lt a b.
Proof.
  unfold SFltb. pose proof (SFcompare_rank f g) as Hc.
  destruct (SFcompare f g) as [[| |]|].
  - destruct Hc as (a & b & Ha & Hb & ->). split; [discriminate|].
    intros (a' & b' & Ha' & Hb' & Hlt). exfalso.
    rewrite Ha in Ha'. rewrite Hb in Hb'. injection Ha' as <-. injection Hb' as <-.
    destruct b as [[? ?] ?]; simpl in *; lia.
  - destruct Hc as (a & b & Ha & Hb & Hlt). split; [|reflexivity].
    intros _. exists a, b. auto.
  - destruct Hc as (a & b & Ha & Hb & Hlt). split; [discriminate|].
    intros (a' & b' & Ha' & Hb' & Hle). exfalso.
    rewrite Ha in Ha'. rewrite Hb in Hb'. injection Ha' as <-. injection Hb' as <-.
    destruct a as [[? ?] ?], b as [[? ?] ?]; simpl in *; lia.
  - split; [discriminate|]. intros (a & b & Ha & Hb & _).
    destruct Hc; congruence.
Qed.

#[export] Instance float_order : ArithOrder float.
Proof.
  split; simpl; [intros x y z|intros x y..]; rewrite ?leb_spec, ?ltb_spec.
  - intros Hxy Hyz. apply SFleb_rank in Hxy as (a & b & Ha & Hb & Hab).
    apply SFleb_rank in Hyz as (b' & c & Hb' & Hc & Hbc).
    rewrite Hb in Hb'. injection Hb' as <-.
    apply SFleb_rank. exists a, c. repeat split; try assumption.
    destruct a as [[? ?] ?], b as [[? ?] ?], c as [[? ?] ?]; simpl in *; lia.
  - intros Hx Hy. apply SFleb_rank in Hx as (a & _ & Ha & _).
    apply SFleb_rank in Hy as (b & _ & Hb & _).
    assert (Hd : lex_le a b \/ lex_le b a)
      by (destruct a as [[? ?] ?], b as [[? ?] ?]; simpl; lia).
    destruct Hd; [left|right]; apply SFleb_rank; eauto.
  - intros Hxy. apply SFleb_rank in Hxy as (a & b & Ha & Hb & _).
    split; apply SFleb_rank; [exists a, a|exists b, b]; repeat split; try assumption.
    + destruct a as [[? ?] ?]; simpl; lia.
    + destruct b as [[? ?] ?]; simpl; lia.
  - intros Hx Hy. apply SFleb_rank in Hx as (a & _ & Ha & _).
    apply SFleb_rank in Hy as (b & _ & Hb & _).
    destruct (SFltb (Prim2SF y) (Prim2SF x)) eqn:Hlt,
             (SFleb (Prim2SF x) (Prim2SF y)) eqn:Hle; try reflexivity; exfalso.
    + apply SFltb_rank in Hlt as (b' & a' & Hb' & Ha' & Hlt).
      apply SFleb_rank in Hle as (a'' & b'' & Ha'' & Hb'' & Hle).
      rewrite Ha in Ha', Ha''. rewrite Hb in Hb', Hb''.
      injection Ha' as <-. injection Ha'' as <-. injection Hb' as <-. injection Hb'' as <-.
      destruct a as [[? ?] ?], b as [[? ?] ?]; simpl in *; lia.
    + assert (Hd : lex_lt b a \/ lex_le a b)
        by (destruct a as [[? ?] ?], b as [[? ?] ?]; simpl; lia).
      destruct Hd as [Hd|Hd].
      * assert (SFltb (Prim2SF y) (Prim2SF x) = true) by (apply SFltb_rank; eauto).
        congruence.
      * assert (SFleb (Prim2SF x) (Prim2SF y) = true) by (apply SFleb_rank; eauto).
        congruence.
Qed.

(** ** One epoch, and the loop *)

Definition is_ok {T} (r : res T) : bool :=
  match r with Ok _ => true | Raise _ => false end.

Section Epochs.
Context {num : Type} `{Arith num}.
Implicit Types (w : world num) (bs : list (batch num)).

Lemma epoch_log_acc (l : locals num) m :
  epoch_log l = Ok m -> accuracy_of (correct l) (total l) = Ok m.1.2.
Proof.
  unfold epoch_log. destruct (get_batch_idx l) as [i|]; simpl; [|discriminate].
  destruct (py_div (loss_sum l) _); simpl; [|discriminate].
  destruct (accuracy_of _ _); simpl; [|discriminate].
  destruct (py_div (batch_time_total l) _); simpl; [|discriminate].
  now intros [= <-].
Qed.

Lemma metrics_inv bs m :
  metrics bs = Ok m ->
  exists l, for_batches locals0 0 bs = Ok l /\ epoch_log l = Ok m.
Proof.
  unfold metrics. destruct (for_batches locals0 0 bs) as [l|]; simpl; [|discriminate].
  eauto.
Qed.

(** [train] returns what the pass computes, whatever the world. *)
Lemma train_result bs n o e w : fst (train bs n o e w) = metrics bs.
Proof.
  unfold train, metrics. unfold_stmt. simpl.
  destruct (for_batches locals0 0 bs) as [l|]; simpl; [|reflexivity].
  destruct (epoch_log l); reflexivity.
Qed.

Definition epoch_banner (e : Z) : string :=
  String "010"%char "Epoch: " +:+ pretty e.

(** The world after a [train] that returned. *)
Definition trained (n o : blob) (e : Z) w : world num :=
  set_optimizer o (set_net n
    (set_stdout (stdout w ++ [epoch_banner e])
       (set_history (history w ++ [CallTrain e]) w))).

Lemma train_run bs n o e w m :
  metrics bs = Ok m -> train bs n o e w = (Ok m, trained n o e w).
Proof.
  intros (l & Hl & Hm)%metrics_inv.
  unfold train, trained, epoch_banner. unfold_stmt. simpl. rewrite Hl. simpl.
  now rewrite Hm.
Qed.

(** The world after a [test] that returned, for the accuracy [acc] of its
    pass. *)
Definition tested (arch : string) (e : Z) (acc : num) w : world num :=
  recorded arch e acc (set_history (history w ++ [CallTest e]) w).

Lemma test_run bs arch e w m :
  core_writable w -> metrics bs = Ok m ->
  test bs arch e w = (Ok m, tested arch e m.1.2 w).
Proof.
  intros Hw (l & Hl & Hm)%metrics_inv.
  unfold test, tested. unfold bind at 1. unfold log_call, modify.
  unfold bind at 1. unfold lift at 1. rewrite Hl.
  unfold bind at 1. unfold lift at 1. rewrite (epoch_log_acc _ _ Hm).
  unfold bind at 1. rewrite record_run by exact Hw.
  unfold lift. now rewrite Hm.
Qed.

Section Loop.
Variables (a : args) (data : Z -> epoch_data num).

(** Both passes of the epoch return. *)
Definition good_epoch (e : Z) : bool :=
  is_ok (metrics (train_batches (data e))) && is_ok (metrics (test_batches (data e))).

(** The world after the body of the loop, when both passes return. *)
Definition epoch_done (e : Z) w : world num :=
  match metrics (train_batches (data e)), metrics (test_batches (data e)) with
  | Ok tr, Ok te =>
      let d := data e in
      let w1 := tested (arch a) e te.1.2 (trained (net_after d) (optimizer_after d) e w) in
      set_files (<["train_log.csv" :=
                    default [] (files w1 !! "train_log.csv")
                    ++ [CsvRow (log_row e tr te (elapsed d))]]> (files w1))
                (set_history (history w1 ++ [CallLogRow e]) w1)
  | _, _ => w
  end.

Lemma trained_core_writable n o e w : core_writable w -> core_writable (trained n o e w).
Proof. exact (fun Hw => Hw). Qed.

Lemma tested_core_writable ar e acc w : core_writable w -> core_writable (tested ar e acc w).
Proof. intros Hw. unfold tested. now apply recorded_core_writable. Qed.

Lemma epoch_done_core_writable e w : core_writable w -> core_writable (epoch_done e w).
Proof.
  intros Hw. unfold epoch_done.
  destruct (metrics (train_batches (data e))); [|exact Hw].
  destruct (metrics (test_batches (data e))); [|exact Hw].
  cbv zeta. unfold set_files, set_history, core_writable; simpl.
  apply (tested_core_writable (arch a) e _ _ (trained_core_writable _ _ e w Hw)).
Qed.

Lemma epoch_body_run e w :
  core_writable w -> good_epoch e = true ->
  epoch_body a data e w = (Ok tt, epoch_done e w).
Proof.
  intros Hw Hg. unfold good_epoch in Hg. apply andb_prop in Hg as [Htr Hte].
  unfold epoch_body, epoch_done. cbv zeta.
  destruct (metrics (train_batches (data e))) as [tr|] eqn:Etr; [|discriminate].
  destruct (metrics (test_batches (data e))) as [te|] eqn:Ete; [|discriminate].
  unfold bind at 1. rewrite (train_run _ _ _ _ _ _ Etr).
  unfold bind at 1.
  rewrite (test_run _ _ _ _ _ (trained_core_writable _ _ e w Hw) Ete).
  set (w1 := tested _ _ _ _).
  assert (Hw1 : core_writable w1)
    by (apply tested_core_writable, trained_core_writable, Hw).
  destruct Hw1 as (Hd & _ & _ & Hl & _). clearbody w1.
  unfold_stmt. simpl. rewrite Hd, Hl. reflexivity.
Qed.

Definition epochs_done (es : list Z) w : world num :=
  fold_left (fun w e => epoch_done e w) es w.

Lemma for_each_run es : forall w,
  core_writable w -> Forall (fun e => good_epoch e = true) es ->
  for_each es (epoch_body a data) w = (Ok tt, epochs_done es w).
Proof.
  induction es as [|e es IH]; intros w Hw Hes; simpl; [reflexivity|].
  inversion Hes as [|? ? He Hes']; subst.
  unfold bind. rewrite (epoch_body_run e w Hw He).
  apply IH; [now apply epoch_done_core_writable|exact Hes'].
Qed.

End Loop.
End Epochs.

(** ** What a statement leaves alone *)

Section Frame.
Context {num : Type} (R : relation (world num)) `{!PreOrder R}.

(** [m] relates every world to the one it leaves, whether it returns or
    raises. *)
Definition preserves {T} (m : stmt num T) : Prop := forall w, R w (snd (m w)).

Lemma preserves_ret {T} (v : T) : preserves (ret v).
Proof. intros w. reflexivity. Qed.

Lemma preserves_raise {T} e : preserves (raise (T := T) e).
Proof. intros w. reflexivity. Qed.

Lemma preserves_lift {T} (r : res T) : preserves (lift r).
Proof. intros w. reflexivity. Qed.

Lemma preserves_get {T} (f : world num -> T) : preserves (get f).
Proof. intros w. reflexivity. Qed.

Lemma preserves_modify f : (forall w, R w (f w)) -> preserves (modify f).
Proof. intros Hf w. apply Hf. Qed.

Lemma preserves_bind {T U} (m : stmt num T) (k : T -> stmt num U) :
  preserves m -> (forall v, preserves (k v)) -> preserves (bind m k).
Proof.
  intros Hm Hk w. unfold bind. specialize (Hm w).
  destruct (m w) as [[v|e] w']; simpl in *; [|exact Hm].
  now transitivity w'; [|apply Hk].
Qed.

Lemma preserves_when b (m : stmt num unit) : preserves m -> preserves (when b m).
Proof. destruct b; [auto|intros _; apply preserves_ret]. Qed.

Lemma preserves_try_except {T} (body handler : stmt num T) :
  preserves body -> preserves handler -> preserves (try_except body handler).
Proof.
  intros Hb Hh w. unfold try_except. specialize (Hb w).
  destruct (body w) as [[v|e] w']; simpl in *; [exact Hb|].
  now transitivity w'; [|apply Hh].
Qed.

Lemma preserves_for_each es (body : Z -> stmt num unit) :
  (forall e, preserves (body e)) -> preserves (for_each es body).
Proof.
  intros Hb. induction es as [|e es IH]; simpl.
  - apply preserves_ret.
  - apply preserves_bind; auto.
Qed.

Lemma preserves_read_file path : preserves (read_file path).
Proof. intros w. unfold read_file. destruct (files w !! path); reflexivity. Qed.

Lemma preserves_write_file path c :
  (forall w, R w (set_files (<[path := c]> (files w)) w)) ->
  preserves (write_file path c).
Proof.
  intros Hf w. unfold write_file. destruct (can_write w path); simpl; [apply Hf|reflexivity].
Qed.

Lemma preserves_append_row path r :
  (forall w c, R w (set_files (<[path := c]> (files w)) w)) ->
  preserves (append_row path r).
Proof.
  intros Hf w. unfold append_row. destruct (can_write w path); simpl; [apply Hf|reflexivity].
Qed.

Lemma preserves_torch_load path : preserves (torch_load path).
Proof.
  unfold torch_load. apply preserves_bind; [apply preserves_read_file|].
  intros [|[d|b|r] [|? ?]]; first [apply preserves_ret | apply preserves_raise].
Qed.

End Frame.

(** ** The exports when [model] is unbound *)

Section NoExport.
Context {num : Type} `{Arith num}.
Implicit Types (w : world num).

(** From a world where the name [model] is unbound: it stays unbound, and
    the two export files are what they were. *)
Definition keeps_exports w w' : Prop :=
  model w = None ->
  model w' = None /\
  files w' !! "model.pth" = files w !! "model.pth" /\
  files w' !! "weights.pth" = files w !! "weights.pth".

#[local] Instance keeps_exports_preorder : PreOrder keeps_exports.
Proof.
  split.
  - intros w Hm. auto.
  - intros w1 w2 w3 H12 H23 Hm. destruct (H12 Hm) as (Hm2 & Ha & Hb).
    destruct (H23 Hm2) as (Hm3 & Ha' & Hb'). repeat split; congruence.
Qed.

Lemma exports_unbound w :
  model w = None ->
  exports w =
  (Ok tt, set_stdout (stdout w ++ ["WARNING: Unable to save model.pth";
                                   "WARNING: Unable to save weights.pth"]) w).
Proof.
  intros Hm. unfold exports. unfold_stmt. rewrite Hm. simpl. rewrite Hm. simpl.
  now rewrite <- app_assoc.
Qed.

Lemma exports_keeps : preserves keeps_exports exports.
Proof. intros w Hm. rewrite (exports_unbound w Hm). simpl. auto. Qed.

Lemma write_keeps path c w :
  path <> "model.pth" -> path <> "weights.pth" ->
  keeps_exports w (set_files (<[path := c]> (files w)) w).
Proof.
  intros H1 H2 Hm. simpl. rewrite !lookup_insert_ne by congruence. auto.
Qed.

Ltac keeps :=
  repeat first
    [ apply (preserves_ret keeps_exports)
    | apply (preserves_raise keeps_exports)
    | apply (preserves_lift keeps_exports)
    | apply (preserves_get keeps_exports)
    | apply (preserves_read_file keeps_exports)
    | apply (preserves_torch_load keeps_exports)
    | apply exports_keeps
    | apply (preserves_when keeps_exports)
    | apply (preserves_try_except keeps_exports)
    | apply (preserves_for_each keeps_exports)
    | apply (preserves_modify keeps_exports); intros ? ?; simpl; solve [auto]
    | apply (preserves_write_file keeps_exports); intros ?; apply write_keeps; discriminate
    | apply (preserves_append_row keeps_exports); intros ? ?; apply write_keeps; discriminate
    | apply (preserves_bind keeps_exports); [|intros ?] ].

Lemma save_checkpoint_keeps state b : preserves keeps_exports (save_checkpoint state b).
Proof.
  unfold save_checkpoint, log_call, torch_save, copyfile.
  keeps.
Qed.

Lemma record_keeps ar e acc : preserves keeps_exports (record ar e acc).
Proof. unfold record. keeps. Qed.

Lemma train_keeps bs n o e : preserves keeps_exports (train bs n o e).
Proof. unfold train, log_call, print. keeps. Qed.

Lemma test_keeps bs ar e : preserves keeps_exports (test bs ar e).
Proof. unfold test, log_call. keeps. Qed.

Lemma epoch_body_keeps a data e : preserves keeps_exports (epoch_body a data e).
Proof.
  unfold epoch_body, log_call. cbv zeta.
  apply (preserves_bind keeps_exports); [apply train_keeps|intros ?].
  apply (preserves_bind keeps_exports); [apply test_keeps|intros ?].
  keeps.
Qed.

Lemma resume_block_keeps : preserves keeps_exports resume_block.
Proof.
  unfold resume_block, print.
  keeps.
  match goal with |- context [if ?d then _ else _] => destruct d end; keeps.
Qed.

Lemma training_run_keeps a data : preserves keeps_exports (training_run a data).
Proof.
  unfold training_run.
  do 4 (apply (preserves_bind keeps_exports); [keeps|intros ?]).
  apply (preserves_for_each keeps_exports). intros e. apply epoch_body_keeps.
Qed.

Lemma main_keeps a n o data : preserves keeps_exports (main a n o data).
Proof.
  unfold main, print.
  do 5 (apply (preserves_bind keeps_exports); [keeps|intros ?]).
  apply (preserves_bind keeps_exports);
    [apply (preserves_when keeps_exports), resume_block_keeps|intros ?].
  apply (preserves_bind keeps_exports); [keeps|intros ?].
  apply training_run_keeps.
Qed.

End NoExport.

(** ** The whole run *)

Section RunFacts.
Context {num : Type} `{Arith num}.
Variables (a : args) (data : Z -> epoch_data num).
Implicit Types (w : world num).

(** The calls of one iteration. *)
Definition epoch_calls (e : Z) : list call :=
  [CallTrain e; CallTest e; CallSaveCheckpoint; CallLogRow e].

(** The row the iteration of [e] writes. *)
Definition epoch_row (e : Z) : list (pyval num) :=
  match metrics (train_batches (data e)), metrics (test_batches (data e)) with
  | Ok tr, Ok te => log_row e tr te (elapsed (data e))
  | _, _ => []
  end.

Lemma tested_frame ar e acc w :
  history (tested ar e acc w) = history w ++ [CallTest e; CallSaveCheckpoint] /\
  start_epoch (tested ar e acc w) = start_epoch w /\
  files (tested ar e acc w) !! "train_log.csv" = files w !! "train_log.csv".
Proof.
  unfold tested.
  set (w' := set_history (history w ++ [CallTest e]) w).
  destruct (recorded_frame ar e acc w') as (_ & _ & _ & Hs & _ & _ & _ & Hh).
  destruct (recorded_files ar e acc w') as (_ & _ & _ & Hl).
  rewrite Hh, Hs, Hl. subst w'. simpl. now rewrite <- app_assoc.
Qed.

Lemma epoch_done_history e w :
  good_epoch data e = true ->
  history (epoch_done a data e w) = history w ++ epoch_calls e.
Proof.
  intros Hg. unfold good_epoch in Hg. apply andb_prop in Hg as [Htr Hte].
  unfold epoch_done.
  destruct (metrics (train_batches (data e))) as [tr|]; [|discriminate].
  destruct (metrics (test_batches (data e))) as [te|]; [|discriminate].
  cbv zeta.
  set (w0 := trained (net_after (data e)) (optimizer_after (data e)) e w).
  destruct (tested_frame (arch a) e te.1.2 w0) as (Hh & _).
  set (w1 := tested (arch a) e te.1.2 w0) in *. clearbody w1.
  unfold set_files, set_history. simpl. rewrite Hh. subst w0. simpl.
  unfold epoch_calls. now rewrite <- !app_assoc.
Qed.

Lemma epoch_done_log e w :
  good_epoch data e = true ->
  files (epoch_done a data e w) !! "train_log.csv" =
  Some (default [] (files w !! "train_log.csv") ++ [CsvRow (epoch_row e)]).
Proof.
  intros Hg. unfold good_epoch in Hg. apply andb_prop in Hg as [Htr Hte].
  unfold epoch_done, epoch_row.
  destruct (metrics (train_batches (data e))) as [tr|]; [|discriminate].
  destruct (metrics (test_batches (data e))) as [te|]; [|discriminate].
  cbv zeta.
  set (w0 := trained (net_after (data e)) (optimizer_after (data e)) e w).
  destruct (tested_frame (arch a) e te.1.2 w0) as (_ & _ & Hl).
  set (w1 := tested (arch a) e te.1.2 w0) in *. clearbody w1.
  unfold set_files, set_history. cbn [files]. rewrite lookup_insert_eq, Hl.
  reflexivity.
Qed.

Lemma epoch_done_start_epoch e w : start_epoch (epoch_done a data e w) = start_epoch w.
Proof.
  unfold epoch_done.
  destruct (metrics (train_batches (data e))) as [tr|]; [|reflexivity].
  destruct (metrics (test_batches (data e))) as [te|]; [|reflexivity].
  cbv zeta.
  set (w0 := trained (net_after (data e)) (optimizer_after (data e)) e w).
  destruct (tested_frame (arch a) e te.1.2 w0) as (_ & Hs & _).
  set (w1 := tested (arch a) e te.1.2 w0) in *. clearbody w1.
  unfold set_files, set_history. simpl. exact Hs.
Qed.

Lemma epochs_done_history es : forall w,
  Forall (fun e => good_epoch data e = true) es ->
  history (epochs_done a data es w) = history w ++ flat_map epoch_calls es.
Proof.
  induction es as [|e es IH]; intros w Hes; simpl.
  - now rewrite app_nil_r.
  - inversion Hes as [|? ? He Hes']; subst.
    rewrite IH by exact Hes'. rewrite (epoch_done_history e w He).
    now rewrite <- app_assoc.
Qed.

Lemma epochs_done_log es : forall w rows,
  Forall (fun e => good_epoch data e = true) es ->
  files w !! "train_log.csv" = Some rows ->
  files (epochs_done a data es w) !! "train_log.csv" =
  Some (rows ++ map (fun e => CsvRow (epoch_row e)) es).
Proof.
  induction es as [|e es IH]; intros w rows Hes Hrows; simpl.
  - now rewrite app_nil_r.
  - inversion Hes as [|? ? He Hes']; subst.
    rewrite (IH _ (rows ++ [CsvRow (epoch_row e)]) Hes').
    + now rewrite <- app_assoc.
    + rewrite (epoch_done_log e w He), Hrows. reflexivity.
Qed.

(** The world in which the loop starts: the directory made, the log
    truncated to its header. *)
Definition run_start w : world num :=
  let w0 := if dir_exists w then w else set_dir_exists true w in
  set_files (<["train_log.csv" := [CsvRow log_header]]> (files w0)) w0.

(** The files of the run can be written once the directory is there. *)
Definition files_writable w : Prop :=
  read_only w "checkpoint.pth.tar" = false /\
  read_only w "model_best.pth.tar" = false /\
  read_only w "train_log.csv" = false /\
  forall e, read_only w (snapshot_name e) = false.

Lemma run_start_core_writable w : files_writable w -> core_writable (run_start w).
Proof.
  intros Hw. unfold run_start, core_writable.
  destruct (dir_exists w) eqn:Hd; simpl; [rewrite Hd|]; split; (reflexivity || exact Hw).
Qed.

Lemma range_spec lo : range lo (lo + 200) = seqZ lo 200.
Proof. unfold range. f_equal. lia. Qed.

Lemma training_run_run w :
  files_writable w ->
  (forall e, start_epoch w <= e < start_epoch w + 200 -> good_epoch data e = true) ->
  training_run a data w =
  (Ok tt, epochs_done a data (seqZ (start_epoch w) 200) (run_start w)).
Proof.
  intros Hw Hg.
  assert (Hs : start_epoch (run_start w) = start_epoch w)
    by (unfold run_start; destruct (dir_exists w); reflexivity).
  assert (Hrun : for_each (seqZ (start_epoch w) 200) (epoch_body a data) (run_start w)
                 = (Ok tt, epochs_done a data (seqZ (start_epoch w) 200) (run_start w))).
  { apply for_each_run; [now apply run_start_core_writable|].
    apply Forall_forall. intros e He. apply Hg.
    apply elem_of_seqZ in He. lia. }
  destruct Hw as (_ & _ & Hl & _).
  unfold training_run. unfold_stmt. simpl.
  unfold run_start in *. unfold_world.
  destruct (dir_exists w) eqn:Hd; simpl in *; rewrite ?Hd, Hl in *; simpl in *;
    rewrite range_spec; exact Hrun.
Qed.

End RunFacts.

(** ** What the exports print *)

Section ExportWarnings.
Context {num : Type} `{Arith num}.
Implicit Types (w : world num).

(** The export to [path] fails: the name [model] is unbound, or the file
    cannot be written. *)
Definition export_fails w (path : string) : bool :=
  match model w with
  | None => true
  | Some _ => negb (can_write w path)
  end.

Definition export_warnings w : list string :=
  (if export_fails w "model.pth" then ["WARNING: Unable to save model.pth"] else [])
  ++ (if export_fails w "weights.pth" then ["WARNING: Unable to save weights.pth"] else []).

Lemma exports_stdout w : stdout (snd (exports w)) = stdout w ++ export_warnings w.
Proof.
  unfold exports, export_warnings, export_fails. unfold_stmt.
  destruct (model w) as [m|] eqn:Hm; simpl; rewrite ?Hm; simpl.
  - destruct (dir_exists w && negb (read_only w "model.pth")); simpl;
      rewrite ?Hm; simpl;
      destruct (dir_exists w && negb (read_only w "weights.pth")); simpl;
      rewrite ?app_nil_r, <- ?app_assoc; reflexivity.
  - now rewrite <- app_assoc.
Qed.

Lemma recorded_stdout arch e acc w :
  stdout (recorded arch e acc w) =
  stdout w ++ (if gtb acc (best_acc w) then export_warnings w else []).
Proof.
  unfold recorded. cbv zeta. unfold set_files, set_history. cbn [stdout].
  destruct (gtb acc (best_acc w)); simpl.
  - rewrite exports_stdout. reflexivity.
  - now rewrite app_nil_r.
Qed.


End ExportWarnings.

(** ** Best epochs, and what a checkpoint holds *)

Section BestEpochs.
Context {num : Type} `{Arith num}.
Implicit Types (w : world num) (cs : list (Z * num)).

(** No call of [cs], run from [w], is a best epoch. *)
Fixpoint none_best (arch : string) cs w : Prop :=
  match cs with
  | [] => True
  | c :: cs' =>
      gtb c.2 (best_acc w) = false /\ none_best arch cs' (recorded arch c.1 c.2 w)
  end.

Lemma none_best_keeps_model_best arch cs : forall w,
  none_best arch cs w ->
  files (recorded_all arch cs w) !! "model_best.pth.tar"
  = files w !! "model_best.pth.tar".
Proof.
  induction cs as [|c cs IH]; intros w Hnb; simpl; [reflexivity|].
  destruct Hnb as [Hc Hnb]. rewrite (IH _ Hnb).
  destruct (recorded_files arch c.1 c.2 w) as (_ & Hb & _).
  rewrite Hb, Hc. reflexivity.
Qed.

(** A file that [record] does not name is left as it was. *)
Lemma recorded_other_file arch epoch acc w p :
  p <> "checkpoint.pth.tar" -> p <> "model_best.pth.tar" ->
  p <> "model.pth" -> p <> "weights.pth" -> (forall k, p <> snapshot_name k) ->
  files (recorded arch epoch acc w) !! p = files w !! p.
Proof.
  intros H1 H2 H3 H4 H5. unfold recorded. cbv zeta.
  unfold set_files, set_history. cbn [files].
  rewrite saved_files_lookup.
  rewrite decide_False by (intros [Hp _]; exact (H5 _ Hp)).
  rewrite decide_False by tauto. rewrite decide_False by exact H1.
  destruct (after_exports_frame (gtb acc (best_acc w))
              (set_best_acc (py_max acc (best_acc w)) w))
    as (_ & _ & _ & _ & _ & _ & _ & _ & Hf).
  now rewrite Hf.
Qed.

(** The five fields of the pickled dict. *)
Lemma recorded_state_fields arch epoch acc w :
  let st := recorded_state arch epoch acc w in
  st !! "epoch" = Some (PInt (epoch + 1)) /\
  st !! "arch" = Some (PStr arch) /\
  st !! "state_dict" = Some (PBlob (net w)) /\
  st !! "best_acc1" = Some (PFloat (py_max acc (best_acc w))) /\
  st !! "optimizer" = Some (PBlob (optimizer w)) /\
  forall key, is_Some (st !! key) ->
    key ∈ ["epoch"; "arch"; "state_dict"; "best_acc1"; "optimizer"].
Proof.
  unfold recorded_state, checkpoint_state. cbv zeta. simpl.
  repeat split;
    try (repeat (rewrite lookup_insert_ne by discriminate);
         rewrite lookup_insert_eq; reflexivity).
  intros key [v Hv]. rewrite !elem_of_cons.
  repeat (rewrite lookup_insert in Hv; case_decide; [subst; tauto|]).
  rewrite lookup_empty in Hv. discriminate.
Qed.

End BestEpochs.

(** [save_checkpoint] prints nothing. *)
Section Console.
Context {num : Type} `{Arith num}.

Definition same_stdout (w w' : world num) : Prop := stdout w' = stdout w.

#[local] Instance same_stdout_preorder : PreOrder same_stdout.
Proof.
  split.
  - intros w. reflexivity.
  - intros w1 w2 w3 H12 H23. unfold same_stdout in *. congruence.
Qed.

Lemma save_checkpoint_stdout state b : preserves same_stdout (save_checkpoint state b).
Proof.
  unfold save_checkpoint, log_call, torch_save, copyfile.
  repeat first
    [ apply (preserves_lift same_stdout)
    | apply (preserves_read_file same_stdout)
    | apply (preserves_when same_stdout)
    | apply (preserves_modify same_stdout); intros ?; reflexivity
    | apply (preserves_write_file same_stdout); intros ?; reflexivity
    | apply (preserves_bind same_stdout); [|intros ?] ].
Qed.

(** On a best epoch with [model] unbound both warnings are printed, whether
    or not the checkpoint can be written afterwards. *)
Lemma record_best_unbound_stdout arch epoch acc (w : world num) :
  model w = None -> gtb acc (best_acc w) = true ->
  stdout (snd (record arch epoch acc w)) =
  stdout w ++ ["WARNING: Unable to save model.pth";
               "WARNING: Unable to save weights.pth"].
Proof.
  intros Hm Hb. rewrite record_unfold. cbv zeta. rewrite Hb.
  unfold after_exports.
  rewrite (exports_unbound (set_best_acc (py_max acc (best_acc w)) w) Hm).
  cbn [snd]. rewrite (save_checkpoint_stdout _ true _). reflexivity.
Qed.

End Console.

(** ** Binary64: counts and their conversions

    What the divisions of a pass compute in binary64, from the definitions
    of [SpecFloat]: a count below 2^53 converts exactly, a product of counts
    below 2^53 is exact, sums and quotients of values that are not negative
    are not negative, and the quotient of two counts rounds to nearest, so
    never above a count that bounds it. *)

Section Digits.

Lemma digits2_pos_size p : digits2_pos p = Pos.size p.
Proof. induction p as [p IH|p IH|]; simpl; congruence. Qed.

Lemma Zdigits2_log2 z : 0 < z -> Zdigits2 z = Z.log2 z + 1.
Proof.
  destruct z as [|p|p]; try lia. intros _. simpl. rewrite digits2_pos_size.
  destruct p; simpl; lia.
Qed.

Lemma Zdigits2_unique z d : 0 < d -> 2 ^ (d - 1) <= z < 2 ^ d -> Zdigits2 z = d.
Proof.
  intros Hd Hz. assert (0 < 2 ^ (d - 1)) by (apply Z.pow_pos_nonneg; lia).
  rewrite Zdigits2_log2 by lia.
  rewrite (Z.log2_unique z (d - 1)); [lia|lia|].
  replace (Z.succ (d - 1)) with d by lia. exact Hz.
Qed.

Lemma iter_pos_nat {A} (f : A -> A) p : forall x,
  SpecFloat.iter_pos f p x = Nat.iter (Pos.to_nat p) f x.
Proof.
  induction p as [p IH|p IH|]; intros x; cbn [SpecFloat.iter_pos].
  - rewrite !IH, Pos2Nat.inj_xI.
    replace (S (2 * Pos.to_nat p))%nat with (Pos.to_nat p + S (Pos.to_nat p))%nat by lia.
    now rewrite Nat.iter_add, Nat.iter_succ_r.
  - rewrite !IH, Pos2Nat.inj_xO.
    replace (2 * Pos.to_nat p)%nat with (Pos.to_nat p + Pos.to_nat p)%nat by lia.
    now rewrite Nat.iter_add.
  - reflexivity.
Qed.

Lemma iter_xO n m : Z.pos (Nat.iter n xO m) = Z.pos m * 2 ^ Z.of_nat n.
Proof.
  induction n as [|n IH].
  - simpl. lia.
  - change (Nat.iter (S n) xO m) with (xO (Nat.iter n xO m)).
    rewrite Pos2Z.inj_xO, IH, Nat2Z.inj_succ, Z.pow_succ_r by lia. lia.
Qed.

Lemma shr_exact n m :
  Nat.iter n shr_1 {| shr_m := Z.pos (Nat.iter n xO m); shr_r := false; shr_s := false |}
  = {| shr_m := Z.pos m; shr_r := false; shr_s := false |}.
Proof.
  induction n as [|n IH]; [reflexivity|].
  rewrite Nat.iter_succ_r.
  change (Nat.iter (S n) xO m) with (xO (Nat.iter n xO m)). exact IH.
Qed.

End Digits.

Section Exact.

Lemma fexp_mid d : -1021 <= d -> fexp prec emax d = d - 53.
Proof. unfold fexp, SpecFloat.emin, prec, emax. lia. Qed.

Lemma shr_fexp_by m e l n :
  0 < m -> -1021 <= Zdigits2 m + e -> n = Zdigits2 m - 53 ->
  shr_fexp prec emax m e l = shr (shr_record_of_loc m l) e n.
Proof.
  intros Hm Hd ->. unfold shr_fexp. rewrite fexp_mid by exact Hd. f_equal. lia.
Qed.

Lemma round_aux_exact s (m0 mx : positive) ex k :
  2 ^ 52 <= Z.pos m0 < 2 ^ 53 -> 0 <= k -> Z.pos mx = Z.pos m0 * 2 ^ k ->
  -1074 <= ex + k <= 971 ->
  binary_round_aux prec emax s (Z.pos mx) ex loc_Exact = S754_finite s m0 (ex + k).
Proof.
  intros Hm0 Hk Hmx He.
  assert (Hd0 : Zdigits2 (Z.pos m0) = 53) by (apply Zdigits2_unique; lia).
  assert (Hd : Zdigits2 (Z.pos mx) = 53 + k).
  { apply Zdigits2_unique; [lia|]. rewrite Hmx.
    replace (53 + k - 1) with (52 + k) by lia. rewrite !Z.pow_add_r by lia.
    assert (0 < 2 ^ k) by (apply Z.pow_pos_nonneg; lia). nia. }
  unfold binary_round_aux.
  rewrite (shr_fexp_by (Z.pos mx) ex loc_Exact k) by lia.
  assert (Hs : shr (shr_record_of_loc (Z.pos mx) loc_Exact) ex k =
               ({| shr_m := Z.pos m0; shr_r := false; shr_s := false |}, ex + k)).
  { destruct k as [|p|p]; [|clear Hk|lia].
    - simpl. rewrite Z.add_0_r. repeat f_equal. lia.
    - unfold shr. f_equal. rewrite iter_pos_nat.
      assert (Hi : mx = Nat.iter (Pos.to_nat p) xO m0).
      { apply Pos2Z.inj. rewrite iter_xO, positive_nat_Z. exact Hmx. }
      rewrite Hi. apply shr_exact. }
  rewrite Hs. cbn [shr_m loc_of_shr_record round_nearest_even].
  rewrite (shr_fexp_by (Z.pos m0) (ex + k) loc_Exact 0) by lia.
  cbn [shr shr_record_of_loc shr_m].
  destruct (Z.leb_spec (ex + k) (emax - prec)) as [_|Hgt]; [reflexivity|].
  unfold emax, prec in Hgt. lia.
Qed.

End Exact.

Section Counts.

(** The binary64 value of a count below 2^53: the count itself, with its
    mantissa shifted up to 53 bits. *)
Definition digits (z : Z) : Z := Z.log2 z + 1.
Definition mantissa (z : Z) : positive := Z.to_pos (z * 2 ^ (53 - digits z)).
Definition exponent (z : Z) : Z := digits z - 53.
Definition count_float (z : Z) : spec_float :=
  S754_finite false (mantissa z) (exponent z).

Lemma digits_range z :
  0 < z < 2 ^ 53 -> 0 < digits z <= 53 /\ 2 ^ (digits z - 1) <= z < 2 ^ digits z.
Proof.
  intros Hz. unfold digits. pose proof (Z.log2_nonneg z).
  assert (Z.log2 z < 53) by (apply Z.log2_lt_pow2; lia).
  pose proof (Z.log2_spec z ltac:(lia)) as Hs.
  replace (Z.log2 z + 1 - 1) with (Z.log2 z) by lia.
  replace (Z.log2 z + 1) with (Z.succ (Z.log2 z)) by lia. lia.
Qed.

Lemma mantissa_spec z :
  0 < z < 2 ^ 53 ->
  Z.pos (mantissa z) = z * 2 ^ (53 - digits z) /\ 2 ^ 52 <= Z.pos (mantissa z) < 2 ^ 53.
Proof.
  intros Hz. destruct (digits_range z Hz) as (Hd & Hlo & Hhi).
  assert (Hp : 0 < 2 ^ (53 - digits z)) by (apply Z.pow_pos_nonneg; lia).
  assert (Hq : 0 < 2 ^ (digits z - 1)) by (apply Z.pow_pos_nonneg; lia).
  assert (H52 : 2 ^ (digits z - 1) * 2 ^ (53 - digits z) = 2 ^ 52).
  { rewrite <- Z.pow_add_r by lia. f_equal. lia. }
  assert (H53 : 2 ^ digits z = 2 * 2 ^ (digits z - 1)).
  { rewrite <- Z.pow_succ_r by lia. f_equal. lia. }
  unfold mantissa. rewrite Z2Pos.id by nia. split; [reflexivity|]. nia.
Qed.

Lemma round_aux_int s mx ex z :
  0 < z < 2 ^ 53 -> ex <= exponent z -> Z.pos mx = z * 2 ^ (- ex) ->
  binary_round_aux prec emax s (Z.pos mx) ex loc_Exact
  = S754_finite s (mantissa z) (exponent z).
Proof.
  intros Hz He Hmx.
  destruct (digits_range z Hz) as (Hd & _). destruct (mantissa_spec z Hz) as (Hm & Hb).
  unfold exponent in *.
  rewrite (round_aux_exact s (mantissa z) mx ex (digits z - 53 - ex)); try lia.
  - f_equal. lia.
  - rewrite Hmx, Hm, <- Z.mul_assoc, <- Z.pow_add_r by lia. do 2 f_equal. lia.
Qed.

Lemma normalize_count z :
  0 < z < 2 ^ 53 -> binary_normalize prec emax z 0 false = count_float z.
Proof.
  intros Hz. destruct (digits_range z Hz) as (Hd & Hr).
  destruct z as [|p|p]; try lia.
  unfold binary_normalize, binary_round.
  change (Z.pos (digits2_pos p)) with (Zdigits2 (Z.pos p)).
  rewrite (Zdigits2_unique (Z.pos p) (digits (Z.pos p))) by lia.
  rewrite fexp_mid by lia. rewrite Z.add_0_r.
  change (digits (Z.pos p) - 53) with (exponent (Z.pos p)).
  unfold shl_align, count_float.
  assert (He : exponent (Z.pos p) <= 0) by (unfold exponent; lia).
  destruct (exponent (Z.pos p) - 0) as [|q|q] eqn:Hq; try lia.
  - apply round_aux_int; [exact Hz|lia|].
    replace (- 0) with 0 by lia. lia.
  - apply round_aux_int; [exact Hz|lia|].
    change (Pos.iter xO p q) with (shift_pos q p). rewrite shift_pos_correct.
    change (Z.pow_pos 2 q) with (2 ^ Z.pos q).
    replace (- exponent (Z.pos p)) with (Z.pos q) by lia. lia.
Qed.

Lemma mul_count a b :
  0 < a -> 0 < b -> a * b < 2 ^ 53 ->
  SFmul prec emax (count_float a) (count_float b) = count_float (a * b).
Proof.
  intros Ha Hb Hab.
  assert (Ha' : 0 < a < 2 ^ 53) by nia. assert (Hb' : 0 < b < 2 ^ 53) by nia.
  destruct (digits_range a Ha') as (Hda & _). destruct (digits_range b Hb') as (Hdb & _).
  destruct (mantissa_spec a Ha') as (Hma & _). destruct (mantissa_spec b Hb') as (Hmb & _).
  pose proof (Z.log2_mul_below a b Ha Hb) as Hlog.
  unfold count_float, SFmul. cbn [xorb].
  apply round_aux_int; [nia| |].
  - unfold exponent, digits in *. lia.
  - rewrite Pos2Z.inj_mul, Hma, Hmb. unfold exponent.
    replace (- (digits a - 53 + (digits b - 53))) with ((53 - digits a) + (53 - digits b)) by lia.
    rewrite Z.pow_add_r by lia. ring.
Qed.

Lemma count_float_valid z : 0 < z < 2 ^ 53 -> valid_binary (count_float z) = true.
Proof.
  intros Hz. destruct (digits_range z Hz) as (Hd & _). destruct (mantissa_spec z Hz) as (_ & Hb).
  unfold count_float, valid_binary, bounded, canonical_mantissa.
  change (Z.pos (digits2_pos (mantissa z))) with (Zdigits2 (Z.pos (mantissa z))).
  rewrite (Zdigits2_unique _ 53) by lia.
  unfold exponent. rewrite fexp_mid by lia.
  apply andb_true_intro. split; [apply Z.eqb_eq; lia|apply Z.leb_le; unfold emax, prec; lia].
Qed.

Lemma of_int_count z : 0 < z < 2 ^ 53 -> Prim2SF (float_of_Z z) = count_float z.
Proof.
  intros Hz. unfold float_of_Z. rewrite normalize_count by exact Hz.
  apply Prim2SF_SF2Prim, count_float_valid, Hz.
Qed.

Lemma of_int_0 : Prim2SF (float_of_Z 0) = S754_zero false.
Proof. reflexivity. Qed.

End Counts.

Section Sign.

(** Neither NaN nor below zero. *)
Definition nonneg (f : spec_float) : bool :=
  match f with
  | S754_zero _ | S754_finite false _ _ | S754_infinity false => true
  | _ => false
  end.

Lemma shr_1_nonneg r : 0 <= shr_m r -> 0 <= shr_m (shr_1 r).
Proof. destruct r as [[|[p|p|]|p] r s]; simpl; lia. Qed.

Lemma iter_pos_inv {A} (P : A -> Prop) (f : A -> A) :
  (forall x, P x -> P (f x)) -> forall p x, P x -> P (SpecFloat.iter_pos f p x).
Proof.
  intros Hf. induction p as [p IH|p IH|]; intros x Hx; cbn [SpecFloat.iter_pos]; auto.
Qed.

Lemma shr_fexp_nonneg m e l : 0 <= m -> 0 <= shr_m (fst (shr_fexp prec emax m e l)).
Proof.
  intros Hm. unfold shr_fexp, shr.
  assert (H0 : 0 <= shr_m (shr_record_of_loc m l)) by (destruct l as [|[]]; exact Hm).
  destruct (fexp prec emax (Zdigits2 m + e) - e); cbn [fst]; try exact H0.
  now apply (iter_pos_inv (fun r => 0 <= shr_m r)); [exact shr_1_nonneg|].
Qed.

Lemma round_nearest_even_nonneg m l : 0 <= m -> 0 <= round_nearest_even m l.
Proof. intros Hm. destruct l as [|[]]; simpl; try lia. destruct (Z.even m); lia. Qed.

Lemma round_aux_nonneg m e l :
  0 <= m -> nonneg (binary_round_aux prec emax false m e l) = true.
Proof.
  intros Hm. unfold binary_round_aux.
  pose proof (shr_fexp_nonneg m e l Hm) as H1.
  destruct (shr_fexp prec emax m e l) as [mrs' e']. cbn [fst] in H1.
  pose proof (shr_fexp_nonneg _ e' loc_Exact
                (round_nearest_even_nonneg _ (loc_of_shr_record mrs') H1)) as H2.
  destruct (shr_fexp prec emax _ e' loc_Exact) as [mrs'' e'']. cbn [fst] in H2.
  destruct (shr_m mrs''); [reflexivity| |lia].
  destruct (_ <=? _); reflexivity.
Qed.

Lemma SFadd_nonneg x y :
  nonneg x = true -> nonneg y = true -> nonneg (SFadd prec emax x y) = true.
Proof.
  destruct x as [sx|[]| |[] mx ex], y as [sy|[]| |[] my ey]; try discriminate;
    try destruct sx; try destruct sy; intros _ _; try reflexivity.
  unfold SFadd, cond_Zopp.
  destruct (shl_align mx ex _) as [a ?], (shl_align my ey _) as [b ?]. cbn [fst].
  change (Z.pos a + Z.pos b) with (Z.pos (a + b)).
  unfold binary_normalize, binary_round.
  destruct (shl_align (a + b) _ _) as [mz ez].
  apply round_aux_nonneg. lia.
Qed.

Lemma SFdiv_nonneg x my ey :
  nonneg x = true -> nonneg (SFdiv prec emax x (S754_finite false my ey)) = true.
Proof.
  destruct x as [sx|[]| |[] mx ex]; try discriminate; intros _; try reflexivity.
  unfold SFdiv, SFdiv_core_binary.
  set (m' := match _ - _ - _ with Z.pos _ => _ | 0 => Z.pos mx | Z.neg _ => 0 end).
  assert (Hm' : 0 <= m').
  { subst m'. destruct (_ - _ - _); try lia. apply Z.shiftl_nonneg. lia. }
  pose proof (Z.div_pos m' (Z.pos my) Hm' ltac:(lia)) as Hq.
  unfold Z.div in Hq. destruct (Z.div_eucl m' (Z.pos my)) as [q r].
  apply round_aux_nonneg, Hq.
Qed.

Lemma nonneg_leb f : SFleb (S754_zero false) f = nonneg f.
Proof. destruct f as [s|[]| |[] m e]; reflexivity. Qed.

End Sign.

Section Rounding.

(** The last step of every rounding: a mantissa that the round-up has
    carried to 2^53 is renormalised. *)
Definition final (m e : Z) : spec_float :=
  if m <? 2 ^ 53 then S754_finite false (Z.to_pos m) e
  else S754_finite false (Z.to_pos (2 ^ 52)) (e + 1).

Lemma shr_m_of_loc m l : shr_m (shr_record_of_loc m l) = m.
Proof. destruct l as [|[]]; reflexivity. Qed.

Lemma loc_of_loc m l : loc_of_shr_record (shr_record_of_loc m l) = l.
Proof. destruct l as [|[]]; reflexivity. Qed.

Lemma round_cases m l :
  round_nearest_even m l = m \/ (round_nearest_even m l = m + 1 /\ l <> loc_Exact).
Proof.
  destruct l as [|[]]; cbn [round_nearest_even]; try destruct (Z.even m);
    try (now left); right; split; (reflexivity || discriminate).
Qed.

Lemma shr_1_of_loc q l :
  0 < q ->
  shr_m (shr_1 (shr_record_of_loc q l)) = q / 2 /\
  (Z.even q = true -> l = loc_Exact ->
   loc_of_shr_record (shr_1 (shr_record_of_loc q l)) = loc_Exact).
Proof.
  intros Hq. destruct q as [|p|p]; try lia. split.
  - rewrite <- Z.div2_div. destruct l as [|[]], p as [p|p|]; reflexivity.
  - intros He ->. destruct p as [p|p|]; try discriminate. reflexivity.
Qed.

Lemma normalize_stage m e :
  2 ^ 52 <= m <= 2 ^ 53 -> -1074 <= e <= 970 ->
  (let '(mrs, e') := shr_fexp prec emax m e loc_Exact in
   match shr_m mrs with
   | 0 => S754_zero false
   | Z.pos p => if e' <=? emax - prec then S754_finite false p e' else S754_infinity false
   | Z.neg _ => S754_nan
   end) = final m e.
Proof.
  intros Hm He. unfold final. destruct (Z.ltb_spec m (2 ^ 53)) as [Hlt|Hge].
  - rewrite (shr_fexp_by m e loc_Exact 0); try lia.
    2, 3: rewrite (Zdigits2_unique m 53); lia.
    cbn [shr shr_record_of_loc shr_m].
    destruct m as [|p|p]; try lia. simpl Z.to_pos.
    destruct (Z.leb_spec e (emax - prec)) as [_|Hgt]; [reflexivity|].
    unfold emax, prec in Hgt. lia.
  - assert (m = 2 ^ 53) as -> by lia.
    rewrite (shr_fexp_by (2 ^ 53) e loc_Exact 1); [|lia|vm_compute Zdigits2; lia|reflexivity].
    unfold shr. cbn [SpecFloat.iter_pos]. vm_compute shr_1. cbn [shr_m].
    destruct (Z.leb_spec (e + 1) (emax - prec)) as [_|Hgt]; [reflexivity|].
    unfold emax, prec in Hgt. lia.
Qed.

(** Rounding a quotient with 53 or 54 bits: the mantissa is truncated to 53
    bits and at most one unit is added, and only when something was cut. *)
Lemma round_aux_quotient q e l :
  2 ^ 52 <= q < 2 ^ 54 -> -1074 <= e <= 960 ->
  exists m e',
    binary_round_aux prec emax false q e l = final m e' /\
    ((q < 2 ^ 53 /\ e' = e /\ (m = q \/ (m = q + 1 /\ l <> loc_Exact))) \/
     (2 ^ 53 <= q /\ e' = e + 1 /\
      (m = q / 2 \/ (m = q / 2 + 1 /\ (Z.even q = false \/ l <> loc_Exact))))).
Proof.
  intros Hq He. unfold binary_round_aux.
  destruct (Z.lt_ge_cases q (2 ^ 53)) as [Hlt|Hge].
  - rewrite (shr_fexp_by q e l 0); try lia.
    2, 3: rewrite (Zdigits2_unique q 53); lia.
    cbn [shr]. rewrite shr_m_of_loc, loc_of_loc.
    exists (round_nearest_even q l), e. split.
    + apply normalize_stage; [|lia]. destruct (round_cases q l) as [->|[-> _]]; lia.
    + left. repeat split; try lia. destruct (round_cases q l) as [->|[-> Hl]]; auto.
  - rewrite (shr_fexp_by q e l 1); try lia.
    2, 3: rewrite (Zdigits2_unique q 54); lia.
    unfold shr. cbn [SpecFloat.iter_pos].
    destruct (shr_1_of_loc q l ltac:(lia)) as [Hm Hl].
    set (r := shr_1 (shr_record_of_loc q l)) in *. rewrite Hm.
    exists (round_nearest_even (q / 2) (loc_of_shr_record r)), (e + 1).
    assert (Hq2 : 2 ^ 52 <= q / 2 < 2 ^ 53).
    { split; [apply Z.div_le_lower_bound|apply Z.div_lt_upper_bound]; lia. }
    split.
    + apply normalize_stage; [|lia].
      destruct (round_cases (q / 2) (loc_of_shr_record r)) as [->|[-> _]]; lia.
    + right. repeat split; try lia.
      destruct (round_cases (q / 2) (loc_of_shr_record r)) as [->|[-> Hr]]; auto.
      right. split; [reflexivity|].
      destruct (Z.even q) eqn:Hev; [right|now left].
      intros ->. apply Hr. now apply Hl.
Qed.

End Rounding.

Section Quotients.

Lemma div_core (m1 m2 : positive) e1 e2 :
  2 ^ 52 <= Z.pos m1 < 2 ^ 53 -> 2 ^ 52 <= Z.pos m2 < 2 ^ 53 -> -1021 <= e1 - e2 ->
  SFdiv_core_binary prec emax (Z.pos m1) e1 (Z.pos m2) e2 =
  (Z.pos m1 * 2 ^ 53 / Z.pos m2, e1 - e2 - 53,
   new_location (Z.pos m2) ((Z.pos m1 * 2 ^ 53) mod Z.pos m2)).
Proof.
  intros H1 H2 He. unfold SFdiv_core_binary.
  rewrite (Zdigits2_unique (Z.pos m1) 53), (Zdigits2_unique (Z.pos m2) 53) by lia.
  rewrite fexp_mid by lia.
  replace (Z.min (53 + e1 - (53 + e2) - 53) (e1 - e2)) with (e1 - e2 - 53) by lia.
  replace (e1 - e2 - (e1 - e2 - 53)) with 53 by lia.
  rewrite Z.shiftl_mul_pow2 by lia.
  unfold Z.div, Z.modulo. destruct (Z.div_eucl _ _). reflexivity.
Qed.

Lemma new_location_inexact n k : new_location n k <> loc_Exact -> k <> 0.
Proof.
  intros Hl ->. apply Hl. unfold new_location, new_location_even, new_location_odd.
  destruct (Z.even n); reflexivity.
Qed.

Lemma final_le m e K :
  2 ^ 52 <= m <= 2 ^ 53 -> -1074 <= e <= 0 -> 0 < K < 2 ^ 53 -> m <= K * 2 ^ (- e) ->
  SFleb (final m e) (count_float K) = true.
Proof.
  intros Hm He HK Hle.
  destruct (digits_range K HK) as (Hd & _). destruct (mantissa_spec K HK) as (HmK & HbK).
  replace (53 - digits K) with (- exponent K) in HmK by (unfold exponent; lia).
  assert (HeK : -52 <= exponent K <= 0) by (unfold exponent; lia).
  set (mK := mantissa K) in *. set (eK := exponent K) in *.
  assert (Hmono : forall x y, 0 <= x -> x < y -> 2 * 2 ^ x <= 2 ^ y).
  { intros x y Hx Hxy. rewrite <- Z.pow_succ_r by lia. apply Z.pow_le_mono_r; lia. }
  unfold final, count_float, SFleb, SFcompare. fold mK eK.
  destruct (Z.ltb_spec m (2 ^ 53)) as [Hlt|Hge].
  - destruct (Z.compare_spec e eK) as [Heq|Hl|Hg]; [|reflexivity|exfalso].
    + change (Pos.compare_cont Eq (Z.to_pos m) mK) with (Z.to_pos m ?= mK)%positive.
      destruct (Pos.compare_spec (Z.to_pos m) mK) as [H|H|H]; try reflexivity.
      exfalso. subst e. apply Pos2Z.pos_lt_pos in H. rewrite Z2Pos.id in H by lia. lia.
    + pose proof (Hmono (- e) (- eK) ltac:(lia) ltac:(lia)). nia.
  - assert (m = 2 ^ 53) as -> by lia.
    destruct (Z.compare_spec (e + 1) eK) as [Heq|Hl|Hg]; [|reflexivity|exfalso].
    + change (Pos.compare_cont Eq (Z.to_pos (2 ^ 52)) mK) with (Z.to_pos (2 ^ 52) ?= mK)%positive.
      destruct (Pos.compare_spec (Z.to_pos (2 ^ 52)) mK) as [H|H|H]; try reflexivity.
      exfalso. apply Pos2Z.pos_lt_pos in H. rewrite Z2Pos.id in H by lia. lia.
    + assert (2 ^ (- e) <= 2 ^ (- eK)) by (apply Z.pow_le_mono_r; lia). nia.
Qed.

(** The quotient of two counts does not round above a count that bounds it. *)
Lemma div_count_le X T K :
  0 < X < 2 ^ 53 -> 0 < T < 2 ^ 53 -> 0 < K < 2 ^ 53 -> X <= K * T ->
  SFleb (SFdiv prec emax (count_float X) (count_float T)) (count_float K) = true.
Proof.
  intros HX HT HK Hle.
  destruct (digits_range X HX) as (HdX & _). destruct (mantissa_spec X HX) as (HmX & HbX).
  destruct (digits_range T HT) as (HdT & _). destruct (mantissa_spec T HT) as (HmT & HbT).
  unfold count_float at 1 2. unfold SFdiv. rewrite div_core; [|lia|lia|unfold exponent; lia].
  cbn [xorb].
  set (m1 := Z.pos (mantissa X)) in *. set (m2 := Z.pos (mantissa T)) in *.
  set (a := 53 - digits X) in *. set (b := 53 - digits T) in *.
  assert (He : exponent X - exponent T - 53 = - (53 + a - b)) by (unfold exponent; lia).
  rewrite He. set (P := 53 + a - b).
  assert (HP : 1 <= P <= 105) by lia.
  pose proof (Z.div_mod (m1 * 2 ^ 53) m2 ltac:(lia)) as Hdm.
  pose proof (Z.mod_pos_bound (m1 * 2 ^ 53) m2 ltac:(lia)) as Hr.
  set (q := m1 * 2 ^ 53 / m2) in *. set (r := (m1 * 2 ^ 53) mod m2) in *.
  (* the quotient is bounded by K * 2^P *)
  assert (Hpa : 0 < 2 ^ a) by (apply Z.pow_pos_nonneg; lia).
  assert (Hpb : 0 < 2 ^ b) by (apply Z.pow_pos_nonneg; lia).
  assert (HpP : 2 ^ b * 2 ^ P = 2 ^ a * 2 ^ 53).
  { rewrite <- !Z.pow_add_r by lia. f_equal. lia. }
  assert (Hbound : m1 * 2 ^ 53 <= K * 2 ^ P * m2).
  { rewrite HmX, HmT.
    replace (K * 2 ^ P * (T * 2 ^ b)) with (K * T * (2 ^ b * 2 ^ P)) by ring.
    rewrite HpP. nia. }
  assert (Hq : 2 ^ 52 <= q < 2 ^ 54).
  { split; [apply Z.div_le_lower_bound|apply Z.div_lt_upper_bound]; nia. }
  assert (HqH : q <= K * 2 ^ P) by nia.
  assert (HqH' : r <> 0 -> q < K * 2 ^ P) by nia.
  assert (H2 : 2 ^ P = 2 * 2 ^ (P - 1)).
  { rewrite <- Z.pow_succ_r by lia. f_equal. lia. }
  destruct (round_aux_quotient q (- P) (new_location m2 r) Hq ltac:(lia))
    as (m & e' & -> & Hcases).
  destruct Hcases as [(Hlt & -> & Hm)|(Hge & -> & Hm)].
  - assert (Hm' : 2 ^ 52 <= m <= 2 ^ 53) by lia.
    apply final_le; [exact Hm'|lia|exact HK|].
    rewrite Z.opp_involutive.
    destruct Hm as [->|[-> Hl]]; [exact HqH|].
    apply new_location_inexact in Hl. specialize (HqH' Hl). lia.
  - assert (Hq2 : 2 ^ 52 <= q / 2 < 2 ^ 53).
    { split; [apply Z.div_le_lower_bound|apply Z.div_lt_upper_bound]; lia. }
    assert (Hm' : 2 ^ 52 <= m <= 2 ^ 53) by lia.
    apply final_le; [exact Hm'|lia|exact HK|].
    replace (- (- P + 1)) with (P - 1) by lia.
    pose proof (Z.div_mod q 2 ltac:(lia)) as Hq'.
    pose proof (Z.mod_pos_bound q 2 ltac:(lia)) as Hq''.
    destruct Hm as [->|[-> Hm]]; [lia|].
    destruct Hm as [Hodd|Hl].
    + rewrite Zeven_mod in Hodd. apply Z.eqb_neq in Hodd. lia.
    + apply new_location_inexact in Hl. specialize (HqH' Hl).
      destruct (Z.eq_dec (q mod 2) 0); lia.
Qed.

End Quotients.

(** ** Binary64: the divisions of a pass over real batches *)

Section Binary64Pass.
Implicit Types (bs : list (batch float)).

(** A batch of a loader: it holds at least one sample, the correct
    predictions are among them, and its loss is a number not below zero. *)
Definition batch_ok (b : batch float) : Prop :=
  0 <= n_correct b <= n_targets b /\ 0 < n_targets b /\
  PrimFloat.leb 0 (loss_item b) = true.

Lemma is_zero_count z : 0 < z < 2 ^ 53 -> is_zero (of_int (num := float) z) = false.
Proof.
  intros Hz. cbn [is_zero of_int float_arith].
  rewrite FloatAxioms.eqb_spec, of_int_count by exact Hz. reflexivity.
Qed.

Lemma leb_0_nonneg (x : float) : PrimFloat.leb 0 x = nonneg (Prim2SF x).
Proof. rewrite leb_spec. apply nonneg_leb. Qed.

Lemma counts_ok bs : forall c t,
  0 <= c <= t -> Forall batch_ok bs ->
  0 <= count_from n_correct c bs <= count_from n_targets t bs /\
  t + batch_count bs <= count_from n_targets t bs.
Proof.
  induction bs as [|b bs IH]; intros c t Hct Hbs.
  - unfold batch_count. simpl. lia.
  - inversion Hbs as [|? ? (Hc & Hn & _) Hbs']; subst.
    destruct (IH (c + n_correct b) (t + n_targets b)) as (H1 & H2); [lia|exact Hbs'|].
    unfold count_from, batch_count in *. simpl fold_left. simpl length. lia.
Qed.

Lemma divisors_ok_float bs : forall i t,
  0 <= i <= t -> Forall batch_ok bs -> count_from n_targets t bs < 2 ^ 53 ->
  divisors_ok i t bs = true.
Proof.
  induction bs as [|b bs IH]; intros i t Hi Hbs Hlt; [reflexivity|].
  inversion Hbs as [|? ? (Hc & Hn & _) Hbs']; subst.
  destruct (counts_ok bs 0 (t + n_targets b)) as (_ & Hle); [lia|exact Hbs'|].
  assert (0 <= batch_count bs) by (unfold batch_count; lia).
  change (count_from n_targets t (b :: bs))
    with (count_from n_targets (t + n_targets b) bs) in Hlt.
  cbn [divisors_ok]. rewrite !is_zero_count by lia. simpl.
  apply IH; [lia|exact Hbs'|exact Hlt].
Qed.

Lemma loss_nonneg bs : forall x : float,
  nonneg (Prim2SF x) = true -> Forall batch_ok bs ->
  nonneg (Prim2SF (sum_from loss_item x bs)) = true.
Proof.
  induction bs as [|b bs IH]; intros x Hx Hbs; [exact Hx|].
  inversion Hbs as [|? ? (_ & _ & Hl) Hbs']; subst.
  change (sum_from loss_item x (b :: bs))
    with (sum_from loss_item (PrimFloat.add x (loss_item b)) bs).
  apply IH; [|exact Hbs'].
  rewrite add_spec. apply SFadd_nonneg; [exact Hx|]. now rewrite <- leb_0_nonneg.
Qed.

Lemma mean_nonneg (x : float) n :
  nonneg (Prim2SF x) = true -> 0 < n < 2 ^ 53 ->
  PrimFloat.leb 0 (quot x (of_int n)) = true.
Proof.
  intros Hx Hn. rewrite leb_0_nonneg. cbn [quot of_int float_arith].
  rewrite div_spec, of_int_count by exact Hn. now apply SFdiv_nonneg.
Qed.

Lemma percentage_bounds c t :
  0 <= c <= t -> 0 < t -> 100 * t < 2 ^ 53 ->
  let a := quot (mul (of_int 100) (of_int c)) (of_int (num := float) t) in
  PrimFloat.leb 0 a = true /\ PrimFloat.leb a 100 = true.
Proof.
  intros Hc Ht Hb a. subst a. rewrite leb_0_nonneg, leb_spec.
  cbn [quot mul of_int float_arith].
  rewrite div_spec, mul_spec, (of_int_count t), (of_int_count 100) by lia.
  change (Prim2SF 100) with (count_float 100).
  destruct (Z.eq_dec c 0) as [->|Hc0].
  - rewrite of_int_0. split; reflexivity.
  - rewrite (of_int_count c), mul_count by lia.
    split; [now apply SFdiv_nonneg|apply div_count_le; lia].
Qed.

End Binary64Pass.

(** ** Concrete runs *)

#[local] Set Warnings "-inexact-float".

(** The two batches of the accumulator scenario, in binary64 and in exact
    arithmetic. *)
Definition scenario : list (batch float) :=
  [Batch 1.0%float 8 10 0.1%float; Batch 2.0%float 9 10 0.2%float].

Definition scenario_exact : list (batch Q) :=
  [Batch 1%Q 8 10 (1 # 10)%Q; Batch 2%Q 9 10 (2 # 10)%Q].

(** An empty, writable [args.save] at the start of a fresh run; the name
    [model] is unbound. *)
Definition fresh_dir {num : Type} `{Arith num} : world num :=
  {| files := ∅; dir_exists := true; read_only := fun _ => false; stdout := [];
     best_acc := of_int 0; start_epoch := 0; net := "net0"; optimizer := "sgd0";
     model := None; history := [] |}.

Lemma fresh_dir_core_writable {num : Type} `{Arith num} : core_writable (fresh_dir (num := num)).
Proof. repeat split. Defined.

(** ** The claims *)

(** C5, as stated, fails on the scenario: in binary64 the mean of the two
    batch times 0.1 and 0.2 is not 0.15. *)
Lemma scenario_time_is_not_0_15 :
  fst (train scenario "net1" "sgd1" 0 fresh_dir) <> Ok (1.5, 85, 0.15)%float.
Proof.
  intros Heq.
  apply (f_equal (fun r => match r with
                           | Ok (_, _, t) => PrimFloat.eqb t 0.15%float
                           | Raise _ => false
                           end)) in Heq.
  vm_compute in Heq. discriminate.
Qed.

(** C5 (amended): a pass over a non-empty sequence of batches that meets no
    zero divisor returns, from [train] and from [test] alike, the loss sum
    over the batch count, 100 times the correct count over the total count,
    and the time sum over the batch count; on the two batches of the scenario
    this is (1.5, 85.0, 0.15000000000000002) in binary64, and (3/2, 85, 3/20)
    in exact arithmetic. *)
Theorem pass_returns_averages {num : Type} `{Arith num}
    (bs : list (batch num)) (n o arch : string) (e : Z) (w : world num) :
  bs <> [] -> divisors_ok 0 0 bs = true -> core_writable w ->
  let m := (quot (loss_total bs) (of_int (batch_count bs)),
            quot (mul (of_int 100) (of_int (correct_count bs))) (of_int (total_count bs)),
            quot (time_total bs) (of_int (batch_count bs))) in
  (fst (train bs n o e w) = Ok m /\ fst (test bs arch e w) = Ok m) /\
  metrics scenario = Ok (1.5, 85, 0.15000000000000002)%float /\
  (exists l a t, metrics scenario_exact = Ok (l, a, t) /\
     l == 3 # 2 /\ a == 85 /\ t == 15 # 100)%Q.
Proof.
  intros Hne Hok Hw m. pose proof (metrics_ok bs Hne Hok) as Hm. fold m in Hm.
  split; [split|split].
  - now rewrite train_result.
  - now rewrite (test_run bs arch e w m Hw Hm).
  - vm_compute. reflexivity.
  - eexists _, _, _. split; [vm_compute; reflexivity|].
    repeat split; reflexivity.
Qed.

Lemma pass_returns_averages_witness :
  fst (train scenario "net1" "sgd1" 0 fresh_dir) =
    Ok (1.5, 85, 0.15000000000000002)%float /\
  fst (test scenario "MobileNetV2" 0 fresh_dir) =
    Ok (1.5, 85, 0.15000000000000002)%float.
Proof.
  refine (proj1 (pass_returns_averages scenario "net1" "sgd1" "MobileNetV2" 0
                   fresh_dir _ _ _)).
  - discriminate.
  - vm_compute. reflexivity.
  - exact fresh_dir_core_writable.
Defined.

(** C9, as stated, fails in binary64: one batch of 360287970189643 samples,
    all of them classified correctly, meets every hypothesis of the claim,
    and the pass returns the accuracy 100.00000000000001, since [100.*correct]
    is rounded up before the division. *)
Definition huge_pass : list (batch float) :=
  [Batch 1.0%float 360287970189643 360287970189643 0.5%float].

Lemma huge_pass_accuracy_above_100 :
  Forall (fun b => 0 <= n_correct b <= n_targets b /\ 0 < n_targets b /\
                   PrimFloat.leb 0 (loss_item b) = true) huge_pass /\
  fst (train huge_pass "net1" "sgd1" 0 fresh_dir)
    = Ok (1.0, 100.00000000000001, 0.5)%float /\
  fst (test huge_pass "MobileNetV2" 0 fresh_dir)
    = Ok (1.0, 100.00000000000001, 0.5)%float /\
  PrimFloat.leb 100.00000000000001 100 = false.
Proof.
  split; [|split; [|split]].
  - repeat constructor; simpl; lia.
  - vm_compute. reflexivity.
  - vm_compute. reflexivity.
  - vm_compute. reflexivity.
Qed.

(** C9 (amended): in binary64, over a non-empty loader whose batches hold at
    least one sample, with the correct predictions among them and a loss
    that is a number not below zero, and with 100 times the number of
    samples below 2^53 (so that [100.*correct] is exact), both passes return
    the same metrics, with the accuracy in [0, 100] and the average loss not
    below zero; over an empty loader [train] raises on its unbound
    [batch_idx] and [test] on the division by a zero total. *)
Theorem epoch_metrics_in_range (bs : list (batch float)) (n o arch : string)
    (e : Z) (w : world float) :
  bs <> [] -> Forall batch_ok bs -> 100 * total_count bs < 2 ^ 53 ->
  core_writable w ->
  (exists l a t,
     fst (train bs n o e w) = Ok (l, a, t) /\
     fst (test bs arch e w) = Ok (l, a, t) /\
     PrimFloat.leb 0 l = true /\
     PrimFloat.leb 0 a = true /\ PrimFloat.leb a 100 = true) /\
  (fst (train [] n o e w) = Raise (UnboundLocalError "batch_idx") /\
   fst (test [] arch e w) = Raise ZeroDivisionError).
Proof.
  intros Hne Hbs Hlt Hw.
  destruct (counts_ok bs 0 0 ltac:(lia) Hbs) as (Hc & Hn).
  assert (Hlen : 0 < batch_count bs)
    by (unfold batch_count; destruct bs; [congruence|simpl; lia]).
  fold (correct_count bs) (total_count bs) in Hc, Hn.
  assert (Hok : divisors_ok 0 0 bs = true)
    by (apply divisors_ok_float; [lia|exact Hbs|fold (total_count bs); lia]).
  pose proof (metrics_ok bs Hne Hok) as Hm.
  split.
  - eexists _, _, _. split; [|split; [|split]].
    + rewrite train_result. exact Hm.
    + rewrite (test_run bs arch e w _ Hw Hm). reflexivity.
    + apply mean_nonneg; [|lia]. apply loss_nonneg; [reflexivity|exact Hbs].
    + apply percentage_bounds; lia.
  - split; reflexivity.
Qed.

Lemma epoch_metrics_in_range_witness :
  exists l a t,
    fst (train scenario "net1" "sgd1" 0 fresh_dir) = Ok (l, a, t) /\
    fst (test scenario "MobileNetV2" 0 fresh_dir) = Ok (l, a, t) /\
    PrimFloat.leb 0 l = true /\
    PrimFloat.leb 0 a = true /\ PrimFloat.leb a 100 = true.
Proof.
  refine (proj1 (epoch_metrics_in_range scenario "net1" "sgd1" "MobileNetV2" 0
                   fresh_dir _ _ _ _)).
  - discriminate.
  - repeat constructor; simpl; lia.
  - vm_compute. reflexivity.
  - exact fresh_dir_core_writable.
Defined.

(** C1: after any number of consecutive [record] calls whose accuracies lie
    in [0, 100], starting from a best accuracy in [0, 100], every call has
    returned and the best accuracy is the maximum of the initial one and of
    all the accuracies supplied: it is one of them and none of them exceeds
    it.  Along the run it never decreases: the best accuracy after a prefix
    of the calls is at most the one after all of them. *)
Theorem best_acc_is_running_max {num : Type} `{ArithOrder num}
    (arch : string) (cs : list (Z * num)) (w : world num) :
  core_writable w -> in_range (best_acc w) ->
  Forall (fun c => in_range c.2) cs ->
  fst (records arch cs w) = Ok tt /\
  best_acc (snd (records arch cs w)) ∈ best_acc w :: cs.*2 /\
  (forall x, x ∈ best_acc w :: cs.*2 ->
             leb x (best_acc (snd (records arch cs w))) = true) /\
  (forall cs1 cs2, cs = cs1 ++ cs2 ->
     leb (best_acc (snd (records arch cs1 w)))
         (best_acc (snd (records arch cs w))) = true).
Proof.
  intros Hw Hb Hcs.
  assert (Hrefl : Forall (fun c : Z * num => leb c.2 c.2 = true) cs).
  { eapply Forall_impl; [exact Hcs|]. intros c Hc. now apply in_range_refl. }
  rewrite (records_run arch cs w Hw). cbn [fst snd].
  destruct (recorded_all_best arch cs w (in_range_refl _ Hb) Hrefl) as [Hin Hub].
  repeat split; [exact Hin|exact Hub|].
  intros cs1 cs2 ->. rewrite (records_run arch cs1 w Hw). cbn [fst snd].
  apply Forall_app in Hrefl as [Hrefl1 Hrefl2].
  destruct (recorded_all_best arch cs1 w (in_range_refl _ Hb) Hrefl1) as [Hin1 Hub1].
  assert (Hb1 : leb (best_acc (recorded_all arch cs1 w))
                    (best_acc (recorded_all arch cs1 w)) = true)
    by (apply Hub1, Hin1).
  rewrite recorded_all_app.
  destruct (recorded_all_best arch cs2 _ Hb1 Hrefl2) as [_ Hub2].
  apply Hub2. left.
Qed.

Lemma best_acc_is_running_max_witness :
  let cs := [(0, 10.0%float); (1, 85.0%float); (2, 50.0%float)] in
  fst (records "MobileNetV2" cs fresh_dir) = Ok tt /\
  best_acc (snd (records "MobileNetV2" cs fresh_dir)) ∈ best_acc fresh_dir :: cs.*2.
Proof.
  intros cs.
  destruct (best_acc_is_running_max "MobileNetV2" cs fresh_dir) as (Hr & Hin & _).
  - exact fresh_dir_core_writable.
  - split; vm_compute; reflexivity.
  - repeat constructor; vm_compute; reflexivity.
  - split; [exact Hr|exact Hin].
Defined.

(** C2: a [record] call for [epoch] copies the rolling checkpoint to
    [checkpoint_<epoch>.pth.tar] when [epoch % 10 == 0], leaves that name
    alone otherwise, and never touches the snapshot of another epoch; over
    the epochs 0, 1, ..., 29, from a directory without snapshots, the
    snapshots present at the end are exactly those of 0, 10 and 20. *)
Theorem snapshot_every_tenth_epoch {num : Type} `{Arith num}
    (arch : string) (epoch : Z) (acc : num) (cs : list (Z * num)) (w : world num) :
  core_writable w ->
  (fst (record arch epoch acc w) = Ok tt /\
   let fs' := files (snd (record arch epoch acc w)) in
   (epoch mod 10 = 0 ->
      fs' !! snapshot_name epoch = fs' !! "checkpoint.pth.tar" /\
      is_Some (fs' !! snapshot_name epoch)) /\
   (epoch mod 10 <> 0 ->
      fs' !! snapshot_name epoch = files w !! snapshot_name epoch) /\
   (forall k, k <> epoch -> fs' !! snapshot_name k = files w !! snapshot_name k)) /\
  (cs.*1 = seqZ 0 30 ->
   (forall k, files w !! snapshot_name k = None) ->
   fst (records arch cs w) = Ok tt /\
   forall k, is_Some (files (snd (records arch cs w)) !! snapshot_name k)
             <-> k ∈ [0; 10; 20]).
Proof.
  intros Hw. split.
  - rewrite (record_run arch epoch acc w Hw). cbn [fst snd].
    destruct (recorded_files arch epoch acc w) as (Hc & _ & Hs & _).
    split; [reflexivity|]. cbv zeta. repeat split.
    + rewrite Hs, Hc. now rewrite decide_True by tauto.
    + rewrite Hs. rewrite decide_True by tauto. eauto.
    + intros Hz. rewrite Hs. now rewrite decide_False by tauto.
    + intros k Hk. rewrite Hs. now rewrite decide_False by tauto.
  - intros Hcs Hnone. rewrite (records_run arch cs w Hw). cbn [fst snd].
    split; [reflexivity|]. intros k.
    rewrite recorded_all_snapshot, Hcs, Hnone, elem_of_seqZ.
    rewrite !elem_of_cons, elem_of_nil.
    split.
    + intros [[? Hx]|[Hk Hz]]; [discriminate|].
      assert (k = 0 \/ k = 10 \/ k = 20) by (Z.to_euclidean_division_equations; lia).
      tauto.
    + intros [->|[->|[->|[]]]]; right; split; (lia || reflexivity).
Qed.

Lemma snapshot_every_tenth_epoch_witness :
  fst (record "MobileNetV2" 10 50.0%float fresh_dir) = Ok tt /\
  is_Some (files (snd (record "MobileNetV2" 10 50.0%float fresh_dir))
             !! snapshot_name 10).
Proof.
  destruct (snapshot_every_tenth_epoch "MobileNetV2" 10 50.0%float [] fresh_dir)
    as ((Hr & Hten & _) & _).
  - exact fresh_dir_core_writable.
  - split; [exact Hr|]. apply Hten. reflexivity.
Defined.

(** C3: a [record] call writes its dict to [checkpoint.pth.tar]; when the
    accuracy is greater than the best so far ([is_best], a strict [>]) it
    copies that file to [model_best.pth.tar], and otherwise leaves
    [model_best.pth.tar] as it was; so after a best epoch followed by any
    number of epochs none of which is best, [model_best.pth.tar] still holds
    what [checkpoint.pth.tar] held at the best epoch. *)
Theorem model_best_is_last_best_checkpoint {num : Type} `{Arith num}
    (arch : string) (epoch : Z) (acc : num) (post : list (Z * num)) (w : world num) :
  core_writable w ->
  let w' := snd (record arch epoch acc w) in
  fst (record arch epoch acc w) = Ok tt /\
  files w' !! "checkpoint.pth.tar" = Some [Pickled (recorded_state arch epoch acc w)] /\
  (gtb acc (best_acc w) = true ->
     files w' !! "model_best.pth.tar" = files w' !! "checkpoint.pth.tar") /\
  (gtb acc (best_acc w) = false ->
     files w' !! "model_best.pth.tar" = files w !! "model_best.pth.tar") /\
  (gtb acc (best_acc w) = true -> none_best arch post w' ->
     fst (records arch post w') = Ok tt /\
     files (snd (records arch post w')) !! "model_best.pth.tar"
     = Some [Pickled (recorded_state arch epoch acc w)]).
Proof.
  intros Hw. rewrite (record_run arch epoch acc w Hw). cbn [fst snd].
  destruct (recorded_files arch epoch acc w) as (Hc & Hb & _).
  split; [reflexivity|]. split; [exact Hc|]. split; [|split].
  - intros Hbest. now rewrite Hb, Hbest, Hc.
  - intros Hbest. now rewrite Hb, Hbest.
  - intros Hbest Hpost.
    rewrite (records_run arch post _ (recorded_core_writable arch epoch acc w Hw)).
    cbn [fst snd]. split; [reflexivity|].
    rewrite (none_best_keeps_model_best arch post _ Hpost).
    now rewrite Hb, Hbest.
Qed.

Lemma model_best_is_last_best_checkpoint_witness :
  let w' := snd (record "MobileNetV2" 3 85.0%float fresh_dir) in
  files (snd (records "MobileNetV2" [(4, 50.0%float); (5, 85.0%float)] w'))
    !! "model_best.pth.tar"
  = Some [Pickled (recorded_state "MobileNetV2" 3 85.0%float fresh_dir)].
Proof.
  intros w'.
  destruct (model_best_is_last_best_checkpoint "MobileNetV2" 3 85.0%float
              [(4, 50.0%float); (5, 85.0%float)] fresh_dir fresh_dir_core_writable)
    as (_ & _ & _ & _ & Hlast).
  apply Hlast.
  - vm_compute. reflexivity.
  - fold w'. simpl. repeat split; vm_compute; reflexivity.
Defined.

(** C4 (the code departs from it): [record] does write the five fields to
    [checkpoint.pth.tar], but the resume block does not read them back.  It
    loads [checkpoint.pth], which [record] never writes, so resuming in the
    directory of a run raises; and were the record found under that name, the
    block would look up the key [net], which the record does not have. *)
Theorem resume_cannot_read_record {num : Type} `{Arith num}
    (arch : string) (epoch : Z) (acc : num) (w : world num) :
  core_writable w -> files w !! "checkpoint.pth" = None ->
  let w' := snd (record arch epoch acc w) in
  let st := recorded_state arch epoch acc w in
  (files w' !! "checkpoint.pth.tar" = Some [Pickled st] /\
   st !! "epoch" = Some (PInt (epoch + 1)) /\
   st !! "arch" = Some (PStr arch) /\
   st !! "state_dict" = Some (PBlob (net w)) /\
   st !! "best_acc1" = Some (PFloat (py_max acc (best_acc w))) /\
   st !! "optimizer" = Some (PBlob (optimizer w))) /\
  fst (resume_block w') = Raise (FileNotFoundError "checkpoint.pth") /\
  (forall w2 : world num,
     dir_exists w2 = true ->
     files w2 !! "checkpoint.pth" = files w' !! "checkpoint.pth.tar" ->
     fst (resume_block w2) = Raise (KeyError "net")).
Proof.
  intros Hw Hnone. rewrite (record_run arch epoch acc w Hw). cbn [fst snd].
  destruct (recorded_files arch epoch acc w) as (Hc & _).
  destruct (recorded_state_fields arch epoch acc w) as (He & Ha & Hs & Hb & Ho & Hkeys).
  cbv zeta. split; [tauto|]. split.
  - assert (Hf : files (recorded arch epoch acc w) !! "checkpoint.pth" = None).
    { rewrite recorded_other_file;
        first [ exact Hnone | discriminate
              | intros k Hk; symmetry in Hk; now apply snapshot_name_fresh in Hk ]. }
    destruct (recorded_frame arch epoch acc w) as (Hd & _).
    destruct Hw as (Hdw & _). rewrite Hdw in Hd.
    set (w' := recorded arch epoch acc w) in *. clearbody w'.
    unfold resume_block. unfold_stmt. simpl. rewrite Hd. simpl. rewrite Hf. reflexivity.
  - intros w2 Hd Hf. rewrite Hc in Hf.
    assert (Hnet : recorded_state arch epoch acc w !! "net" = None).
    { destruct (recorded_state arch epoch acc w !! "net") eqn:E; [|reflexivity].
      specialize (Hkeys "net" (ex_intro _ _ E)).
      rewrite !elem_of_cons, elem_of_nil in Hkeys.
      exfalso. intuition discriminate. }
    unfold resume_block, subscript, getitem. unfold_stmt. simpl.
    rewrite Hd. simpl. rewrite Hf. simpl. rewrite Hnet. reflexivity.
Qed.

Lemma resume_cannot_read_record_witness :
  fst (resume_block (snd (record "MobileNetV2" 0 85.0%float fresh_dir)))
  = Raise (FileNotFoundError "checkpoint.pth").
Proof.
  destruct (resume_cannot_read_record "MobileNetV2" 0 85.0%float fresh_dir)
    as (_ & Hraise & _).
  - exact fresh_dir_core_writable.
  - reflexivity.
  - exact Hraise.
Defined.



(** C10: while the name [model] is unbound (no statement of [main.py] binds
    it), every best epoch prints both export warnings, and no statement of the
    script, up to the whole of [main], binds the name or changes what
    [model.pth] and [weights.pth] hold: a run that starts without them ends
    without them. *)
Theorem unbound_model_blocks_exports {num : Type} `{Arith num}
    (arch : string) (epoch : Z) (acc : num) (bs : list (batch num))
    (a : args) (net0 opt0 : string) (data : Z -> epoch_data num) (w : world num) :
  model w = None ->
  (gtb acc (best_acc w) = true ->
     stdout (snd (record arch epoch acc w)) =
     stdout w ++ ["WARNING: Unable to save model.pth";
                  "WARNING: Unable to save weights.pth"]) /\
  (forall w' : world num,
     w' = snd (record arch epoch acc w) \/ w' = snd (test bs arch epoch w) \/
     w' = snd (main a net0 opt0 data w) ->
     model w' = None /\
     files w' !! "model.pth" = files w !! "model.pth" /\
     files w' !! "weights.pth" = files w !! "weights.pth").
Proof.
  intros Hm. split.
  - intros Hb. now apply record_best_unbound_stdout.
  - intros w' [->|[->| ->]].
    + exact (record_keeps arch epoch acc w Hm).
    + exact (test_keeps bs arch epoch w Hm).
    + exact (main_keeps a net0 opt0 data w Hm).
Qed.

Lemma unbound_model_blocks_exports_witness :
  stdout (snd (record "MobileNetV2" 0 85.0%float fresh_dir)) =
    ["WARNING: Unable to save model.pth"; "WARNING: Unable to save weights.pth"] /\
  files (snd (record "MobileNetV2" 0 85.0%float fresh_dir)) !! "model.pth" = None.
Proof.
  destruct (unbound_model_blocks_exports "MobileNetV2" 0 85.0%float scenario
              (Args "MobileNetV2" false) "net0" "sgd0"
              (fun _ => Epoch_data scenario "net1" "sgd1" scenario 1.0%float)
              fresh_dir eq_refl) as (Hout & Hkeep).
  split.
  - apply Hout. vm_compute. reflexivity.
  - destruct (Hkeep _ (or_introl eq_refl)) as (_ & Hfile & _). exact Hfile.
Defined.

(** A fresh run is [training_run] from the module-level initial values. *)
Definition fresh_start {num : Type} `{Arith num} (net0 opt0 : blob) (w : world num)
  : world num :=
  set_optimizer opt0 (set_net net0
    (set_stdout (stdout w ++ ["==> Preparing data.."; "==> Building model.."])
       (set_start_epoch 0 (set_best_acc (of_int 0) w)))).

Lemma main_fresh {num : Type} `{Arith num} (a : args) (net0 opt0 : blob)
    (data : Z -> epoch_data num) (w : world num) :
  resume a = false ->
  main a net0 opt0 data w = training_run a data (fresh_start net0 opt0 w).
Proof.
  intros Hr. unfold main, fresh_start. rewrite Hr. unfold_stmt. simpl.
  now rewrite <- app_assoc.
Qed.

(** A pass that returns has met no zero divisor, so what it returns is
    the three quotients. *)
Section Returned.
Context {num : Type} `{Arith num}.

Lemma for_batches_divisors (bs : list (batch num)) : forall l i l',
  for_batches l i bs = Ok l' -> divisors_ok i (total l) bs = true.
Proof.
  induction bs as [|b bs IH]; intros l i l' Hl; [reflexivity|].
  cbn [for_batches] in Hl. unfold loop_body, accuracy_of, py_div in Hl.
  cbn [loss_sum correct total] in Hl. cbn [divisors_ok].
  destruct (is_zero (of_int (i + 1))); [discriminate|].
  destruct (is_zero (of_int (total l + n_targets b))); [discriminate|].
  cbn [res_bind negb andb] in *. exact (IH _ _ _ Hl).
Qed.

Lemma metrics_returned (bs : list (batch num)) :
  is_ok (metrics bs) = true ->
  metrics bs =
  Ok (quot (loss_total bs) (of_int (batch_count bs)),
      quot (mul (of_int 100) (of_int (correct_count bs))) (of_int (total_count bs)),
      quot (time_total bs) (of_int (batch_count bs))).
Proof.
  intros Hok. apply metrics_ok.
  - intros ->. discriminate.
  - destruct (metrics bs) as [m|] eqn:Hm; [|discriminate].
    apply metrics_inv in Hm as (l & Hl & _).
    exact (for_batches_divisors bs locals0 0 l Hl).
Qed.

Lemma epoch_row_returned (data : Z -> epoch_data num) (e : Z) l1 a1 t1 l2 a2 t2 :
  metrics (train_batches (data e)) = Ok (l1, a1, t1) ->
  metrics (test_batches (data e)) = Ok (l2, a2, t2) ->
  epoch_row data e
  = [PInt e; PFloat l1; PFloat a1; PFloat t1; PFloat l2; PFloat a2; PFloat t2;
     PFloat (elapsed (data e))].
Proof. intros Htr Hte. unfold epoch_row. now rewrite Htr, Hte. Qed.

End Returned.

(** C6: from any world whose run files can be written, and for epochs whose
    two passes return, lines 186-203 run the loop body for exactly the 200
    epochs [start_epoch, start_epoch + 200) and nothing ends the loop early:
    the calls are [train], [test] (which calls [save_checkpoint]) and the
    log row for each epoch in turn, and [train_log.csv] ends as the header
    and 200 rows.  Each iteration calls [train], then [test] in the world
    [train] left, and then adds exactly one row after those already in the
    file: the epoch, the three numbers [train] returned, the three [test]
    returned, and the elapsed time.  A run without [--resume] does so from
    epoch 0. *)
Theorem run_loop_200_epochs {num : Type} `{Arith num}
    (a : args) (net0 opt0 : string) (data : Z -> epoch_data num) (w : world num) :
  files_writable w ->
  (forall e, start_epoch w <= e < start_epoch w + 200 -> good_epoch data e = true) ->
  let s := start_epoch w in
  (range s (s + 200) = seqZ s 200 /\ length (range s (s + 200)) = 200%nat /\
   forall e, e ∈ range s (s + 200) <-> s <= e < s + 200) /\
  (fst (training_run a data w) = Ok tt /\
   history (snd (training_run a data w))
   = history w ++ flat_map epoch_calls (range s (s + 200)) /\
   exists rows,
     files (snd (training_run a data w)) !! "train_log.csv"
     = Some (CsvRow [PStr "epoch"; PStr "train_loss"; PStr "train_top1_acc";
                     PStr "train_time"; PStr "test_loss"; PStr "test_top1_acc";
                     PStr "test_time"; PStr "cumulative_time"] :: rows) /\
     length rows = 200%nat) /\
  (forall e (w1 : world num),
     core_writable w1 -> good_epoch data e = true ->
     let d := data e in
     let after_train := train (train_batches d) (net_after d) (optimizer_after d) e w1 in
     exists l1 a1 t1 l2 a2 t2,
       fst after_train = Ok (l1, a1, t1) /\
       fst (test (test_batches d) (arch a) e (snd after_train)) = Ok (l2, a2, t2) /\
       fst (epoch_body a data e w1) = Ok tt /\
       history (snd (epoch_body a data e w1)) = history w1 ++ epoch_calls e /\
       files (snd (epoch_body a data e w1)) !! "train_log.csv"
       = Some (default [] (files w1 !! "train_log.csv")
               ++ [CsvRow [PInt e; PFloat l1; PFloat a1; PFloat t1;
                           PFloat l2; PFloat a2; PFloat t2; PFloat (elapsed d)]])) /\
  (resume a = false ->
   (forall e, 0 <= e < 200 -> good_epoch data e = true) ->
   fst (main a net0 opt0 data w) = Ok tt /\
   history (snd (main a net0 opt0 data w))
   = history w ++ flat_map epoch_calls (range 0 200)).
Proof.
  intros Hw Hg s.
  assert (Hall : Forall (fun e => good_epoch data e = true) (seqZ s 200)).
  { apply Forall_forall. intros e He. apply Hg. apply elem_of_seqZ in He. lia. }
  split; [|split; [|split]].
  - rewrite range_spec. split; [reflexivity|]. split.
    + rewrite length_seqZ. reflexivity.
    + intros e. rewrite elem_of_seqZ. lia.
  - rewrite (training_run_run a data w Hw Hg). cbn [fst snd].
    split; [reflexivity|]. rewrite range_spec. split.
    + rewrite epochs_done_history by exact Hall.
      unfold run_start. destruct (dir_exists w); reflexivity.
    + exists (map (fun e => CsvRow (epoch_row data e)) (seqZ s 200)). split.
      * rewrite (epochs_done_log a data _ _ [CsvRow log_header]); [reflexivity|exact Hall|].
        unfold run_start. cbv zeta. unfold set_files. cbn [files].
        apply lookup_insert_eq.
      * rewrite length_map, length_seqZ. reflexivity.
  - intros e w1 Hw1 He d after_train. subst d after_train.
    pose proof He as Hg'. unfold good_epoch in Hg'. apply andb_prop in Hg' as [Htr Hte].
    destruct (metrics (train_batches (data e))) as [[[l1 a1] t1]|] eqn:Etr; [|discriminate].
    destruct (metrics (test_batches (data e))) as [[[l2 a2] t2]|] eqn:Ete; [|discriminate].
    exists l1, a1, t1, l2, a2, t2.
    rewrite (train_run _ _ _ e w1 _ Etr). cbn [fst snd].
    rewrite (test_run _ _ e _ _ (trained_core_writable _ _ e w1 Hw1) Ete).
    rewrite (epoch_body_run a data e w1 Hw1 He). cbn [fst snd].
    rewrite (epoch_done_history a data e w1 He), (epoch_done_log a data e w1 He).
    rewrite (epoch_row_returned data e _ _ _ _ _ _ Etr Ete).
    repeat split.
  - intros Hr Hg0. rewrite (main_fresh a net0 opt0 data w Hr).
    rewrite (training_run_run a data (fresh_start net0 opt0 w)); [|exact Hw|exact Hg0].
    cbn [fst snd]. split; [reflexivity|].
    change (start_epoch (fresh_start net0 opt0 w)) with 0.
    change (range 0 200) with (seqZ 0 200). rewrite epochs_done_history.
    + unfold run_start. destruct (dir_exists (fresh_start net0 opt0 w)); reflexivity.
    + apply Forall_forall. intros e He. apply Hg0. apply elem_of_seqZ in He. lia.
Qed.

Lemma fresh_dir_files_writable {num : Type} `{Arith num} :
  files_writable (fresh_dir (num := num)).
Proof. repeat split. Defined.

(** Every epoch sees the two batches of the scenario. *)
Definition scenario_data : Z -> epoch_data float :=
  fun _ => Epoch_data scenario "net1" "sgd1" scenario 1.0%float.

Lemma run_loop_200_epochs_witness :
  fst (training_run (Args "MobileNetV2" false) scenario_data fresh_dir) = Ok tt /\
  history (snd (training_run (Args "MobileNetV2" false) scenario_data fresh_dir))
  = flat_map epoch_calls (range 0 200) /\
  exists rows,
    files (snd (training_run (Args "MobileNetV2" false) scenario_data fresh_dir))
      !! "train_log.csv"
    = Some (CsvRow [PStr "epoch"; PStr "train_loss"; PStr "train_top1_acc";
                    PStr "train_time"; PStr "test_loss"; PStr "test_top1_acc";
                    PStr "test_time"; PStr "cumulative_time"] :: rows) /\
    length rows = 200%nat.
Proof.
  destruct (run_loop_200_epochs (Args "MobileNetV2" false) "net0" "sgd0"
              scenario_data fresh_dir fresh_dir_files_writable)
    as (_ & Hrun & _).
  - intros e _. vm_compute. reflexivity.
  - exact Hrun.
Defined.

(** C8: whatever [train_log.csv] held before, after lines 186-203 it holds
    the header row followed by one row per epoch of the loop, in order.  The
    row of an epoch has eight fields: the epoch; the loss sum over the batch
    count, 100 times the correct count over the sample count and the time
    sum over the batch count of the training pass; the same three of the
    test pass; and the elapsed time.  An iteration of the loop leaves the
    rows already there in place and adds its own after them, and the six
    numbers in the middle are what [train] and [test] returned. *)
Theorem log_is_append_only {num : Type} `{Arith num}
    (a : args) (data : Z -> epoch_data num) (w : world num) :
  files_writable w ->
  (forall e, start_epoch w <= e < start_epoch w + 200 -> good_epoch data e = true) ->
  let s := start_epoch w in
  let row := fun e : Z =>
    let tb := train_batches (data e) in
    let vb := test_batches (data e) in
    [PInt e;
     PFloat (quot (loss_total tb) (of_int (batch_count tb)));
     PFloat (quot (mul (of_int 100) (of_int (correct_count tb))) (of_int (total_count tb)));
     PFloat (quot (time_total tb) (of_int (batch_count tb)));
     PFloat (quot (loss_total vb) (of_int (batch_count vb)));
     PFloat (quot (mul (of_int 100) (of_int (correct_count vb))) (of_int (total_count vb)));
     PFloat (quot (time_total vb) (of_int (batch_count vb)));
     PFloat (elapsed (data e))] in
  files (snd (training_run a data w)) !! "train_log.csv"
  = Some (CsvRow [PStr "epoch"; PStr "train_loss"; PStr "train_top1_acc";
                  PStr "train_time"; PStr "test_loss"; PStr "test_top1_acc";
                  PStr "test_time"; PStr "cumulative_time"]
          :: map (fun e => CsvRow (row e)) (range s (s + 200))) /\
  (forall e (w1 : world num),
     core_writable w1 -> good_epoch data e = true ->
     fst (epoch_body a data e w1) = Ok tt /\
     files (snd (epoch_body a data e w1)) !! "train_log.csv"
     = Some (default [] (files w1 !! "train_log.csv") ++ [CsvRow (row e)])) /\
  (forall e (w1 : world num),
     core_writable w1 -> good_epoch data e = true ->
     exists l1 a1 t1 l2 a2 t2,
       fst (train (train_batches (data e)) (net_after (data e))
              (optimizer_after (data e)) e w1) = Ok (l1, a1, t1) /\
       fst (test (test_batches (data e)) (arch a) e w1) = Ok (l2, a2, t2) /\
       row e = [PInt e; PFloat l1; PFloat a1; PFloat t1;
                PFloat l2; PFloat a2; PFloat t2; PFloat (elapsed (data e))]).
Proof.
  intros Hw Hg s row.
  assert (Hrow : forall e, good_epoch data e = true -> epoch_row data e = row e).
  { intros e He. unfold good_epoch in He. apply andb_prop in He as [Htr Hte].
    apply epoch_row_returned; now apply metrics_returned. }
  split; [|split].
  - rewrite (training_run_run a data w Hw Hg). cbn [fst snd].
    rewrite range_spec.
    rewrite (epochs_done_log a data _ _ [CsvRow log_header]).
    + cbn [app]. do 2 f_equal. apply map_ext_in. intros e He.
      rewrite Hrow; [reflexivity|]. apply Hg.
      apply list_elem_of_In, elem_of_seqZ in He. lia.
    + apply Forall_forall. intros e He. apply Hg. apply elem_of_seqZ in He. lia.
    + unfold run_start. cbv zeta. unfold set_files. cbn [files].
      apply lookup_insert_eq.
  - intros e w1 Hw1 He. rewrite (epoch_body_run a data e w1 Hw1 He). cbn [fst snd].
    split; [reflexivity|]. rewrite <- (Hrow e He). now apply epoch_done_log.
  - intros e w1 Hw1 He. pose proof He as Hg'. unfold good_epoch in Hg'.
    apply andb_prop in Hg' as [Htr Hte].
    apply metrics_returned in Htr, Hte.
    eexists _, _, _, _, _, _. split; [|split].
    + rewrite train_result. exact Htr.
    + rewrite (test_run _ _ e w1 _ Hw1 Hte). reflexivity.
    + reflexivity.
Qed.

Lemma log_is_append_only_witness :
  files (snd (training_run (Args "MobileNetV2" false) scenario_data fresh_dir))
    !! "train_log.csv"
  = Some (CsvRow [PStr "epoch"; PStr "train_loss"; PStr "train_top1_acc";
                  PStr "train_time"; PStr "test_loss"; PStr "test_top1_acc";
                  PStr "test_time"; PStr "cumulative_time"]
          :: map (fun e => CsvRow [PInt e; PFloat 1.5; PFloat 85; PFloat 0.15000000000000002;
                                   PFloat 1.5; PFloat 85; PFloat 0.15000000000000002;
                                   PFloat 1.0]%float)
                 (range 0 200)).
Proof.
  destruct (log_is_append_only (Args "MobileNetV2" false) scenario_data fresh_dir
              fresh_dir_files_writable) as (Hlog & _).
  - intros e _. vm_compute. reflexivity.
  - exact Hlog.
Defined.

(** * Further properties of the script *)

(** ** The resume block *)

Section Resume.
Context {num : Type} `{Arith num}.
Implicit Types (w : world num).

(** The world after lines 28-70: the two module-level globals, the two
    banners, the network just built. *)
Definition initialised (net0 : blob) w : world num :=
  set_net net0
    (set_stdout (stdout w ++ ["==> Preparing data.."; "==> Building model.."])
       (set_start_epoch 0 (set_best_acc (of_int 0) w))).

Definition resume_banner w : world num :=
  set_stdout (stdout w ++ ["==> Resuming from checkpoint.."]) w.

(** The world after a resume block that found [d] in [checkpoint.pth]. *)
Definition resumed (sd : blob) (acc : num) (e : Z) w : world num :=
  set_start_epoch e (set_best_acc acc (set_net sd (resume_banner w))).

Lemma main_resume (a : args) (net0 opt0 : blob) (data : Z -> epoch_data num) w :
  resume a = true ->
  main a net0 opt0 data w =
  match resume_block (initialised net0 w) with
  | (Ok _, w') => training_run a data (set_optimizer opt0 w')
  | (Raise x, w') => (Raise x, w')
  end.
Proof.
  intros Hr. unfold main, initialised. rewrite Hr.
  unfold bind, modify, print, when. unfold_world. simpl.
  rewrite <- app_assoc. simpl.
  match goal with |- context [resume_block ?x] => destruct (resume_block x) as [[[]|x'] w'] end;
    reflexivity.
Qed.

Lemma resume_block_no_dir w :
  dir_exists w = false ->
  resume_block w =
  (Raise (AssertionError "Error: no checkpoint directory found!"), resume_banner w).
Proof.
  intros Hd. unfold resume_block, resume_banner. unfold_stmt. simpl. now rewrite Hd.
Qed.

Lemma resume_block_no_file w :
  dir_exists w = true -> files w !! "checkpoint.pth" = None ->
  resume_block w = (Raise (FileNotFoundError "checkpoint.pth"), resume_banner w).
Proof.
  intros Hd Hf. unfold resume_block, resume_banner. unfold_stmt. simpl.
  rewrite Hd. simpl. now rewrite Hf.
Qed.

Lemma resume_block_found w (d : dict num) sd acc e :
  dir_exists w = true -> files w !! "checkpoint.pth" = Some [Pickled d] ->
  d !! "net" = Some (PBlob sd) -> d !! "acc" = Some (PFloat acc) ->
  d !! "epoch" = Some (PInt e) ->
  resume_block w = (Ok tt, resumed sd acc e w).
Proof.
  intros Hd Hf Hn Ha He. unfold resume_block, resumed, resume_banner, subscript, getitem.
  unfold_stmt. simpl. rewrite Hd. simpl. rewrite Hf. simpl.
  rewrite Hn. simpl. rewrite Ha. simpl. rewrite He. reflexivity.
Qed.

End Resume.

Section ResumeRun.
Context {num : Type} `{Arith num}.
Implicit Types (w : world num).

Lemma epochs_done_start_epoch (a : args) (data : Z -> epoch_data num) es : forall w,
  start_epoch (epochs_done a data es w) = start_epoch w.
Proof.
  induction es as [|e es IH]; intros w; simpl; [reflexivity|].
  now rewrite IH, epoch_done_start_epoch.
Qed.

End ResumeRun.

(** X1: a run with [--resume] that finds no directory, or no
    [checkpoint.pth] in it, raises (the assertion of line 78, or the error of
    [torch.load]) before lines 186-193: no file of the directory is changed,
    the old log included, the directory is not created, and no epoch is
    run. *)
Theorem failed_resume_writes_nothing {num : Type} `{Arith num}
    (a : args) (net0 opt0 : string) (data : Z -> epoch_data num) (w : world num) :
  resume a = true ->
  dir_exists w = false \/ files w !! "checkpoint.pth" = None ->
  let r := main a net0 opt0 data w in
  fst r = Raise (if dir_exists w then FileNotFoundError "checkpoint.pth"
                 else AssertionError "Error: no checkpoint directory found!") /\
  files (snd r) = files w /\ dir_exists (snd r) = dir_exists w /\
  history (snd r) = history w.
Proof.
  intros Hr Hcase r. subst r. rewrite (main_resume a net0 opt0 data w Hr).
  destruct (dir_exists w) eqn:Hd.
  - destruct Hcase as [?|Hf]; [discriminate|].
    rewrite (resume_block_no_file (initialised net0 w) Hd Hf). repeat split.
    simpl. exact Hd.
  - rewrite (resume_block_no_dir (initialised net0 w) Hd). repeat split.
    simpl. exact Hd.
Qed.

Lemma failed_resume_writes_nothing_witness :
  fst (main (Args "MobileNetV2" true) "net0" "sgd0" scenario_data fresh_dir)
  = Raise (FileNotFoundError "checkpoint.pth").
Proof.
  destruct (failed_resume_writes_nothing (Args "MobileNetV2" true) "net0" "sgd0"
              scenario_data fresh_dir) as (Hraise & _).
  - reflexivity.
  - right. reflexivity.
  - exact Hraise.
Defined.

(** X2: a run with [--resume] in a directory whose [checkpoint.pth] holds a
    dict with the keys [net], [acc] and [epoch] takes the parameters, the best
    accuracy and the first epoch from it, builds its optimiser afresh (line 87
    runs after the resume block, and the block reads no optimiser state), and
    then trains the 200 epochs [epoch, epoch + 200). *)
Theorem resume_restarts_from_stored_epoch {num : Type} `{Arith num}
    (a : args) (net0 opt0 : string) (data : Z -> epoch_data num) (w : world num)
    (d : dict num) (sd : string) (acc : num) (e0 : Z) :
  resume a = true -> dir_exists w = true -> files_writable w ->
  files w !! "checkpoint.pth" = Some [Pickled d] ->
  d !! "net" = Some (PBlob sd) -> d !! "acc" = Some (PFloat acc) ->
  d !! "epoch" = Some (PInt e0) ->
  (forall e, e0 <= e < e0 + 200 -> good_epoch data e = true) ->
  let w0 := set_optimizer opt0 (resumed sd acc e0 (initialised net0 w)) in
  main a net0 opt0 data w = training_run a data w0 /\
  (net w0 = sd /\ best_acc w0 = acc /\ start_epoch w0 = e0 /\ optimizer w0 = opt0) /\
  fst (main a net0 opt0 data w) = Ok tt /\
  history (snd (main a net0 opt0 data w))
  = history w ++ flat_map epoch_calls (range e0 (e0 + 200)) /\
  start_epoch (snd (main a net0 opt0 data w)) = e0.
Proof.
  intros Hr Hd Hw Hf Hn Ha He Hg w0.
  assert (Hmain : main a net0 opt0 data w = training_run a data w0).
  { rewrite (main_resume a net0 opt0 data w Hr).
    now rewrite (resume_block_found (initialised net0 w) d sd acc e0 Hd Hf Hn Ha He). }
  split; [exact Hmain|]. split; [repeat split|].
  rewrite Hmain.
  rewrite (training_run_run a data w0 Hw Hg). cbn [fst snd].
  split; [reflexivity|]. split.
  - change (start_epoch w0) with e0. rewrite range_spec, epochs_done_history.
    + unfold run_start. subst w0. cbn [dir_exists]. simpl. now rewrite Hd.
    + apply Forall_forall. intros e Hin. apply Hg. apply elem_of_seqZ in Hin.
      change (start_epoch w0) with e0 in Hin. lia.
  - rewrite epochs_done_start_epoch. unfold run_start.
    destruct (dir_exists w0); reflexivity.
Qed.

(** A directory left by a run that wrote the format the resume block reads. *)
Definition old_format_dir : world float :=
  set_files
    {[ "checkpoint.pth" :=
         [Pickled (<["net" := PBlob "net7"]>
                   (<["acc" := PFloat 90.5%float]>
                   (<["epoch" := PInt 7]> ∅)))] ]}
    fresh_dir.

Lemma resume_restarts_from_stored_epoch_witness :
  fst (main (Args "MobileNetV2" true) "net0" "sgd0" scenario_data old_format_dir)
  = Ok tt /\
  start_epoch (snd (main (Args "MobileNetV2" true) "net0" "sgd0" scenario_data
                      old_format_dir)) = 7.
Proof.
  destruct (resume_restarts_from_stored_epoch (Args "MobileNetV2" true) "net0" "sgd0"
              scenario_data old_format_dir
              (<["net" := PBlob "net7"]>
                 (<["acc" := PFloat 90.5%float]> (<["epoch" := PInt 7]> ∅)))
              "net7" 90.5%float 7)
    as (_ & _ & Hok & _ & Hstart).
  - reflexivity.
  - reflexivity.
  - repeat split.
  - vm_compute. reflexivity.
  - vm_compute. reflexivity.
  - vm_compute. reflexivity.
  - vm_compute. reflexivity.
  - intros e _. vm_compute. reflexivity.
  - split; [exact Hok|exact Hstart].
Defined.

(** ** Edge cases of a pass *)

(** X3: over an empty test loader [test] raises [ZeroDivisionError] at
    [acc = 100.*correct/total] (int 0 converts to the float zero), before any
    of the bookkeeping: no file is written, and the best accuracy and the
    console are as they were. *)
Theorem empty_test_loader_writes_nothing {num : Type} `{Arith num}
    (arch : string) (epoch : Z) (w : world num) :
  is_zero (of_int (num := num) 0) = true ->
  let r := test [] arch epoch w in
  fst r = Raise ZeroDivisionError /\
  files (snd r) = files w /\ best_acc (snd r) = best_acc w /\
  stdout (snd r) = stdout w /\ history (snd r) = history w ++ [CallTest epoch].
Proof.
  intros Hz r. subst r. unfold test, accuracy_of, py_div. unfold_stmt. simpl.
  rewrite Hz. repeat split.
Qed.

Lemma empty_test_loader_writes_nothing_witness :
  fst (test [] "MobileNetV2" 0 (fresh_dir (num := float))) = Raise ZeroDivisionError /\
  files (snd (test [] "MobileNetV2" 0 (fresh_dir (num := float)))) = ∅.
Proof.
  destruct (empty_test_loader_writes_nothing "MobileNetV2" 0 (fresh_dir (num := float)))
    as (Hraise & Hfiles & _).
  - vm_compute. reflexivity.
  - split; [exact Hraise|exact Hfiles].
Defined.

Section FirstBatch.
Implicit Types (bs : list (batch float)).

Lemma count_from_le bs : forall t,
  Forall (fun b => 0 <= n_targets b) bs -> t <= count_from n_targets t bs.
Proof.
  induction bs as [|b bs IH]; intros t Hbs; [reflexivity|].
  inversion Hbs as [|? ? Hn Hbs']; subst.
  change (count_from n_targets t (b :: bs))
    with (count_from n_targets (t + n_targets b) bs).
  specialize (IH (t + n_targets b) Hbs'). lia.
Qed.

Lemma divisors_ok_nonneg bs : forall i t,
  0 <= i -> 0 < t -> Forall (fun b => 0 <= n_targets b) bs ->
  i + batch_count bs < 2 ^ 53 -> count_from n_targets t bs < 2 ^ 53 ->
  divisors_ok i t bs = true.
Proof.
  induction bs as [|b bs IH]; intros i t Hi Ht Hbs Hlen Hlt; [reflexivity|].
  inversion Hbs as [|? ? Hn Hbs']; subst.
  change (count_from n_targets t (b :: bs))
    with (count_from n_targets (t + n_targets b) bs) in Hlt.
  pose proof (count_from_le bs (t + n_targets b) Hbs') as Hle.
  unfold batch_count in *. simpl length in Hlen.
  cbn [divisors_ok]. rewrite !is_zero_count by lia. simpl.
  apply IH; [lia|lia|exact Hbs'|lia|exact Hlt].
Qed.

Lemma empty_first_batch b bs :
  n_targets b = 0 -> metrics (b :: bs) = Raise ZeroDivisionError.
Proof.
  intros Hz. unfold metrics. cbn [for_batches]. unfold loop_body, accuracy_of.
  cbn [loss_sum correct total batch_time_total batch_idx locals0].
  rewrite Hz. change (0 + 0) with 0. change (0 + 1) with 1.
  rewrite (py_div_ok _ (of_int 1)) by (apply is_zero_count; lia).
  reflexivity.
Qed.

End FirstBatch.

(** X4: in binary64, over batches of non-negative size with fewer than 2^53
    batches and samples, a pass returns exactly when the loader yields a
    first batch and that batch holds a sample (later empty batches do no
    harm); with an empty first batch the loop raises [ZeroDivisionError]
    while it formats its progress line. *)
Theorem pass_returns_iff_first_batch_has_a_sample (bs : list (batch float)) :
  Forall (fun b => 0 <= n_targets b) bs ->
  batch_count bs < 2 ^ 53 -> total_count bs < 2 ^ 53 ->
  (is_ok (metrics bs) = true <->
   exists b bs', bs = b :: bs' /\ 0 < n_targets b) /\
  (forall b bs', bs = b :: bs' -> n_targets b = 0 ->
     metrics bs = Raise ZeroDivisionError).
Proof.
  intros Hbs Hlen Hlt. split.
  - split.
    + destruct bs as [|b bs']; [discriminate|]. intros Hok. exists b, bs'.
      split; [reflexivity|].
      inversion Hbs as [|? ? Hn _]; subst.
      destruct (Z.eq_dec (n_targets b) 0) as [Hz|Hz]; [|lia].
      rewrite (empty_first_batch b bs' Hz) in Hok. discriminate.
    + intros (b & bs' & -> & Hb).
      inversion Hbs as [|? ? _ Hbs']; subst.
      rewrite metrics_ok; [reflexivity|discriminate|].
      change (total_count (b :: bs'))
        with (count_from n_targets (0 + n_targets b) bs') in Hlt.
      pose proof (count_from_le bs' (0 + n_targets b) Hbs') as Hle.
      unfold batch_count in Hlen. simpl length in Hlen.
      cbn [divisors_ok]. rewrite !is_zero_count by lia. simpl.
      apply divisors_ok_nonneg; [lia|lia|exact Hbs'|unfold batch_count; lia|exact Hlt].
  - intros b bs' -> Hz. now apply empty_first_batch.
Qed.

Lemma pass_returns_iff_first_batch_has_a_sample_witness :
  is_ok (metrics scenario) = true <->
  exists b bs', scenario = b :: bs' /\ 0 < n_targets b.
Proof.
  refine (proj1 (pass_returns_iff_first_batch_has_a_sample scenario _ _ _)).
  - repeat constructor; simpl; lia.
  - vm_compute. reflexivity.
  - vm_compute. reflexivity.
Defined.

(** ** Checkpoint files *)

(** X5: the snapshot is named after the epoch just completed, while the dict
    inside it carries the next epoch: [checkpoint_<e>.pth.tar] holds
    [epoch = e + 1], together with the best accuracy updated by that epoch. *)
Theorem snapshot_holds_next_epoch {num : Type} `{Arith num}
    (arch : string) (epoch : Z) (acc : num) (w : world num) :
  core_writable w -> epoch mod 10 = 0 ->
  exists st : dict num,
    files (snd (record arch epoch acc w)) !! snapshot_name epoch = Some [Pickled st] /\
    st !! "epoch" = Some (PInt (epoch + 1)) /\
    st !! "best_acc1" = Some (PFloat (py_max acc (best_acc w))) /\
    st !! "state_dict" = Some (PBlob (net w)).
Proof.
  intros Hw Hz. exists (recorded_state arch epoch acc w).
  rewrite (record_run arch epoch acc w Hw). cbn [snd].
  destruct (recorded_files arch epoch acc w) as (_ & _ & Hs & _).
  destruct (recorded_state_fields arch epoch acc w) as (He & _ & Hsd & Hb & _).
  rewrite Hs, decide_True by tauto. auto.
Qed.

Lemma snapshot_holds_next_epoch_witness :
  exists st : dict float,
    files (snd (record "MobileNetV2" 10 50.0%float fresh_dir)) !! snapshot_name 10
    = Some [Pickled st] /\
    st !! "epoch" = Some (PInt 11).
Proof.
  destruct (snapshot_holds_next_epoch "MobileNetV2" 10 50.0%float fresh_dir
              fresh_dir_core_writable eq_refl) as (st & Hf & He & _).
  exists st. split; [exact Hf|exact He].
Defined.

(** X6: [save_checkpoint] reads [state['epoch']] only after it has written:
    given a dict without that key it raises [KeyError], and by then
    [checkpoint.pth.tar] (and, for a best epoch, [model_best.pth.tar]) already
    hold the dict; no snapshot is made. *)
Theorem save_checkpoint_missing_epoch {num : Type} `{Arith num}
    (state : dict num) (is_best : bool) (w : world num) :
  core_writable w -> state !! "epoch" = None ->
  let r := save_checkpoint state is_best w in
  fst r = Raise (KeyError "epoch") /\
  files (snd r) !! "checkpoint.pth.tar" = Some [Pickled state] /\
  files (snd r) !! "model_best.pth.tar"
    = (if is_best then Some [Pickled state] else files w !! "model_best.pth.tar") /\
  forall k, files (snd r) !! snapshot_name k = files w !! snapshot_name k.
Proof.
  intros (Hd & Hc & Hb & _ & Hs) He r. subst r.
  unfold save_checkpoint, getitem. unfold_stmt. simpl.
  rewrite Hd, Hc. simpl.
  destruct is_best; simpl.
  - rewrite lookup_insert_eq. simpl. rewrite Hb. simpl. rewrite He. simpl.
    repeat split.
    + rewrite lookup_insert_ne by discriminate. apply lookup_insert_eq.
    + apply lookup_insert_eq.
    + intros k. destruct (snapshot_name_fresh k) as (? & ? & _).
      now rewrite !lookup_insert_ne by congruence.
  - rewrite He. simpl. repeat split.
    + apply lookup_insert_eq.
    + now rewrite lookup_insert_ne by discriminate.
    + intros k. destruct (snapshot_name_fresh k) as (? & _).
      now rewrite lookup_insert_ne by congruence.
Qed.

Lemma save_checkpoint_missing_epoch_witness :
  fst (save_checkpoint (<["arch" := PStr "MobileNetV2"]> ∅) true
         (fresh_dir (num := float)))
  = Raise (KeyError "epoch").
Proof.
  destruct (save_checkpoint_missing_epoch (<["arch" := PStr "MobileNetV2"]> ∅) true
              (fresh_dir (num := float)) fresh_dir_core_writable) as (Hraise & _).
  - vm_compute. reflexivity.
  - exact Hraise.
Defined.

(** X7: an epoch that does not beat the best accuracy, a tie included, is
    not a best epoch: [model_best.pth.tar] is left alone, no export is tried
    and nothing is printed; the rolling checkpoint is written all the same,
    and the best accuracy it records is still an upper bound of both. *)
Theorem tie_is_not_a_best_epoch {num : Type} `{ArithOrder num}
    (arch : string) (epoch : Z) (acc : num) (w : world num) :
  core_writable w -> leb acc (best_acc w) = true ->
  let w' := snd (record arch epoch acc w) in
  gtb acc (best_acc w) = false /\
  files w' !! "model_best.pth.tar" = files w !! "model_best.pth.tar" /\
  files w' !! "model.pth" = files w !! "model.pth" /\
  files w' !! "weights.pth" = files w !! "weights.pth" /\
  stdout w' = stdout w /\
  files w' !! "checkpoint.pth.tar" = Some [Pickled (recorded_state arch epoch acc w)] /\
  leb acc (best_acc w') = true /\ leb (best_acc w) (best_acc w') = true.
Proof.
  intros Hw Hle. destruct (leb_refl_of _ _ Hle) as [Ha Hb].
  assert (Hgt : gtb acc (best_acc w) = false)
    by (rewrite (gtb_leb _ _ Ha Hb), Hle; reflexivity).
  rewrite (record_run arch epoch acc w Hw). cbn [snd].
  destruct (recorded_files arch epoch acc w) as (Hc & Hmb & _).
  destruct (recorded_frame arch epoch acc w) as (_ & _ & Hbest & _).
  destruct (py_max_upper acc (best_acc w) Ha Hb) as [Hu1 Hu2].
  split; [exact Hgt|]. split; [now rewrite Hmb, Hgt|].
  assert (Hexp : forall p, (p = "model.pth" \/ p = "weights.pth") ->
            files (recorded arch epoch acc w) !! p = files w !! p).
  { intros p Hp. unfold recorded. cbv zeta. rewrite Hgt.
    unfold after_exports, set_files, set_history. cbn [files].
    rewrite saved_files_lookup.
    rewrite decide_False
      by (intros [Hk _];
          destruct (snapshot_name_fresh (epoch + 1 - 1)) as (_ & _ & ? & ? & _);
          destruct Hp; congruence).
    rewrite decide_False by (intros [_ ?]; discriminate).
    rewrite decide_False by (destruct Hp; subst; discriminate).
    reflexivity. }
  split; [apply Hexp; auto|]. split; [apply Hexp; auto|].
  split; [rewrite recorded_stdout, Hgt; apply app_nil_r|].
  split; [exact Hc|]. rewrite Hbest. auto.
Qed.

Lemma tie_is_not_a_best_epoch_witness :
  let w := snd (record "MobileNetV2" 0 85.0%float fresh_dir) in
  files (snd (record "MobileNetV2" 1 85.0%float w)) !! "model_best.pth.tar"
  = files w !! "model_best.pth.tar".
Proof.
  intros w.
  assert (Hw : core_writable w).
  { subst w. rewrite (record_run _ _ _ _ fresh_dir_core_writable).
    apply recorded_core_writable, fresh_dir_core_writable. }
  destruct (tie_is_not_a_best_epoch "MobileNetV2" 1 85.0%float w Hw)
    as (_ & Hmb & _).
  - vm_compute. reflexivity.
  - exact Hmb.
Defined.

(** ** The directory after a run *)

Section AfterRun.
Context {num : Type} `{Arith num}.
Variables (a : args) (data : Z -> epoch_data num).
Implicit Types (w : world num).

(** The accuracy of the test pass of an epoch. *)
Definition test_acc (e : Z) : num :=
  match metrics (test_batches (data e)) with
  | Ok te => te.1.2
  | Raise _ => of_int 0
  end.

Lemma epoch_done_unfold e w :
  good_epoch data e = true ->
  exists tr te,
    metrics (train_batches (data e)) = Ok tr /\
    metrics (test_batches (data e)) = Ok te /\
    test_acc e = te.1.2 /\
    epoch_done a data e w =
    let w0 := set_history
                (history (trained (net_after (data e)) (optimizer_after (data e)) e w)
                 ++ [CallTest e])
                (trained (net_after (data e)) (optimizer_after (data e)) e w) in
    let w1 := recorded (arch a) e te.1.2 w0 in
    set_files (<["train_log.csv" :=
                  default [] (files w1 !! "train_log.csv")
                  ++ [CsvRow (log_row e tr te (elapsed (data e)))]]> (files w1))
              (set_history (history w1 ++ [CallLogRow e]) w1).
Proof.
  intros Hg. unfold good_epoch in Hg. apply andb_prop in Hg as [Htr Hte].
  unfold epoch_done, test_acc, tested.
  destruct (metrics (train_batches (data e))) as [tr|]; [|discriminate].
  destruct (metrics (test_batches (data e))) as [te|]; [|discriminate].
  exists tr, te. repeat split.
Qed.

Lemma epoch_done_best_acc e w :
  good_epoch data e = true ->
  best_acc (epoch_done a data e w) = py_max (test_acc e) (best_acc w).
Proof.
  intros Hg. destruct (epoch_done_unfold e w Hg) as (tr & te & _ & _ & -> & ->).
  cbv zeta.
  match goal with |- context [recorded ?ar ?ep ?ac ?w0] =>
    destruct (recorded_frame ar ep ac w0) as (_ & _ & Hb & _);
    set (w1 := recorded ar ep ac w0) in *
  end.
  change (best_acc w1 = py_max te.1.2 (best_acc w)). rewrite Hb. reflexivity.
Qed.

Lemma epoch_done_checkpoint e w :
  good_epoch data e = true ->
  exists st : dict num,
    files (epoch_done a data e w) !! "checkpoint.pth.tar" = Some [Pickled st] /\
    st !! "epoch" = Some (PInt (e + 1)) /\
    st !! "state_dict" = Some (PBlob (net_after (data e))) /\
    st !! "optimizer" = Some (PBlob (optimizer_after (data e))) /\
    st !! "best_acc1" = Some (PFloat (best_acc (epoch_done a data e w))).
Proof.
  intros Hg. rewrite (epoch_done_best_acc e w Hg).
  destruct (epoch_done_unfold e w Hg) as (tr & te & _ & _ & -> & ->).
  cbv zeta.
  match goal with |- context [recorded ?ar ?ep ?ac ?w0] =>
    destruct (recorded_files ar ep ac w0) as (Hc & _);
    destruct (recorded_state_fields ar ep ac w0) as (He & _ & Hs & Hb & Ho & _);
    exists (recorded_state ar ep ac w0);
    set (w1 := recorded ar ep ac w0) in *
  end.
  split; [|split; [exact He|split; [exact Hs|split; [exact Ho|exact Hb]]]].
  change (<["train_log.csv" := default [] (files w1 !! "train_log.csv")
            ++ [CsvRow (log_row e tr te (elapsed (data e)))]]> (files w1)
          !! "checkpoint.pth.tar" = Some [Pickled (recorded_state (arch a) e te.1.2
            (set_history
               (history (trained (net_after (data e)) (optimizer_after (data e)) e w)
                ++ [CallTest e])
               (trained (net_after (data e)) (optimizer_after (data e)) e w)))]).
  rewrite lookup_insert_ne by discriminate. exact Hc.
Qed.

Lemma epoch_done_snapshot e w k :
  good_epoch data e = true ->
  is_Some (files (epoch_done a data e w) !! snapshot_name k) <->
  is_Some (files w !! snapshot_name k) \/ (k = e /\ e mod 10 = 0).
Proof.
  intros Hg. destruct (epoch_done_unfold e w Hg) as (tr & te & _ & _ & _ & ->).
  cbv zeta.
  match goal with |- context [recorded ?ar ?ep ?ac ?w0] =>
    destruct (recorded_files ar ep ac w0) as (_ & _ & Hs & _);
    set (w1 := recorded ar ep ac w0) in *
  end.
  change (is_Some (<["train_log.csv" := default [] (files w1 !! "train_log.csv")
            ++ [CsvRow (log_row e tr te (elapsed (data e)))]]> (files w1)
          !! snapshot_name k)
          <-> is_Some (files w !! snapshot_name k) \/ (k = e /\ e mod 10 = 0)).
  destruct (snapshot_name_fresh k) as (_ & _ & _ & _ & Hlog & _).
  rewrite lookup_insert_ne by congruence. rewrite Hs.
  destruct (decide (k = e /\ e mod 10 = 0)) as [Hk|Hk].
  - split; [intros _; right; exact Hk|eauto].
  - change (is_Some (files w !! snapshot_name k)
            <-> is_Some (files w !! snapshot_name k) \/ (k = e /\ e mod 10 = 0)).
    tauto.
Qed.

Lemma epochs_done_snoc es e w :
  epochs_done a data (es ++ [e]) w = epoch_done a data e (epochs_done a data es w).
Proof. unfold epochs_done. now rewrite fold_left_app. Qed.

Lemma epochs_done_snapshot es : forall w k,
  Forall (fun e => good_epoch data e = true) es ->
  is_Some (files (epochs_done a data es w) !! snapshot_name k) <->
  is_Some (files w !! snapshot_name k) \/ (k ∈ es /\ k mod 10 = 0).
Proof.
  induction es as [|e es IH]; intros w k Hes; simpl.
  - rewrite elem_of_nil. tauto.
  - inversion Hes as [|? ? He Hes']; subst.
    rewrite (IH _ _ Hes'), (epoch_done_snapshot e w k He), elem_of_cons.
    split.
    + intros [[?|[-> ?]]|[? ?]]; tauto.
    + intros [?|[[->|?] ?]]; tauto.
Qed.

(** The running maximum, as [test] computes it. *)
Definition running_best (accs : list num) (b : num) : num :=
  fold_left (fun b x => py_max x b) accs b.

Lemma epochs_done_best_acc es : forall w,
  Forall (fun e => good_epoch data e = true) es ->
  best_acc (epochs_done a data es w) = running_best (map test_acc es) (best_acc w).
Proof.
  induction es as [|e es IH]; intros w Hes; simpl; [reflexivity|].
  inversion Hes as [|? ? He Hes']; subst.
  now rewrite (IH _ Hes'), (epoch_done_best_acc e w He).
Qed.

End AfterRun.

Lemma recorded_all_best_acc {num : Type} `{Arith num} arch
    (cs : list (Z * num)) : forall w : world num,
  best_acc (recorded_all arch cs w) = running_best cs.*2 (best_acc w).
Proof.
  induction cs as [|c cs IH]; intros w; simpl; [reflexivity|].
  rewrite IH. now destruct (recorded_frame arch c.1 c.2 w) as (_ & _ & -> & _).
Qed.

(** X8: when lines 186-203 have run their 200 epochs from [s = start_epoch],
    [checkpoint.pth.tar] holds the record of the last one: its [epoch] field
    is [s + 200], the first epoch of a later run, with the parameters left by
    the last training pass and the final best accuracy; and the run has added
    a snapshot for exactly the multiples of 10 in [s, s + 200). *)
Theorem run_leaves_next_epoch_checkpoint {num : Type} `{Arith num}
    (a : args) (data : Z -> epoch_data num) (w : world num) :
  files_writable w ->
  (forall e, start_epoch w <= e < start_epoch w + 200 -> good_epoch data e = true) ->
  let s := start_epoch w in
  let w' := snd (training_run a data w) in
  (exists st : dict num,
     files w' !! "checkpoint.pth.tar" = Some [Pickled st] /\
     st !! "epoch" = Some (PInt (s + 200)) /\
     st !! "state_dict" = Some (PBlob (net_after (data (s + 199)))) /\
     st !! "optimizer" = Some (PBlob (optimizer_after (data (s + 199)))) /\
     st !! "best_acc1" = Some (PFloat (best_acc w'))) /\
  (forall k, is_Some (files w' !! snapshot_name k) <->
             is_Some (files w !! snapshot_name k) \/
             (s <= k < s + 200 /\ k mod 10 = 0)).
Proof.
  intros Hw Hg s w'. subst w'. rewrite (training_run_run a data w Hw Hg). cbn [snd].
  fold s.
  assert (Hall : Forall (fun e => good_epoch data e = true) (seqZ s 200)).
  { apply Forall_forall. intros e He. apply Hg. apply elem_of_seqZ in He. lia. }
  split.
  - assert (Hsplit : seqZ s 200 = seqZ s 199 ++ [s + 199])
      by exact (seqZ_S s 199).
    rewrite Hsplit, epochs_done_snoc.
    destruct (epoch_done_checkpoint a data (s + 199)
                (epochs_done a data (seqZ s 199) (run_start w)))
      as (st & Hf & He & Hs & Ho & Hb).
    { apply Hg. lia. }
    exists st. split; [exact Hf|].
    replace (s + 200) with (s + 199 + 1) by lia. auto.
  - intros k. rewrite (epochs_done_snapshot a data _ _ _ Hall), elem_of_seqZ.
    assert (Hsame : files (run_start w) !! snapshot_name k = files w !! snapshot_name k).
    { unfold run_start. cbv zeta. unfold set_files. cbn [files].
      destruct (snapshot_name_fresh k) as (_ & _ & _ & _ & Hlog & _).
      rewrite lookup_insert_ne by congruence. destruct (dir_exists w); reflexivity. }
    rewrite Hsame. tauto.
Qed.

Lemma run_leaves_next_epoch_checkpoint_witness :
  exists st : dict float,
    files (snd (training_run (Args "MobileNetV2" false) scenario_data fresh_dir))
      !! "checkpoint.pth.tar" = Some [Pickled st] /\
    st !! "epoch" = Some (PInt 200).
Proof.
  destruct (run_leaves_next_epoch_checkpoint (Args "MobileNetV2" false)
              scenario_data fresh_dir fresh_dir_files_writable)
    as ((st & Hf & He & _) & _).
  - intros e _. vm_compute. reflexivity.
  - exists st. split; [exact Hf|exact He].
Defined.

(** X9: over the 200 epochs of lines 186-203, with test accuracies and an
    initial best accuracy in [0, 100], the global [best_acc] ends as the
    running maximum: it is the initial value or the accuracy of one of the
    epochs, and neither the initial value nor the accuracy of any epoch
    exceeds it. *)
Theorem run_ends_with_best_accuracy {num : Type} `{ArithOrder num}
    (a : args) (data : Z -> epoch_data num) (w : world num) :
  files_writable w ->
  (forall e, start_epoch w <= e < start_epoch w + 200 -> good_epoch data e = true) ->
  in_range (best_acc w) ->
  (forall e, start_epoch w <= e < start_epoch w + 200 -> in_range (test_acc data e)) ->
  let s := start_epoch w in
  let best := best_acc (snd (training_run a data w)) in
  (best = best_acc w \/ exists e, s <= e < s + 200 /\ best = test_acc data e) /\
  leb (best_acc w) best = true /\
  (forall e, s <= e < s + 200 -> leb (test_acc data e) best = true).
Proof.
  intros Hw Hg Hb Hacc s best. subst best.
  rewrite (training_run_run a data w Hw Hg). cbn [snd]. fold s.
  assert (Hall : Forall (fun e => good_epoch data e = true) (seqZ s 200)).
  { apply Forall_forall. intros e He. apply Hg. apply elem_of_seqZ in He. lia. }
  rewrite (epochs_done_best_acc a data _ _ Hall).
  assert (Hstart : best_acc (run_start w) = best_acc w)
    by (unfold run_start; destruct (dir_exists w); reflexivity).
  rewrite Hstart.
  set (cs := map (fun e => (e, test_acc data e)) (seqZ s 200)).
  assert (Hcs2 : cs.*2 = map (test_acc data) (seqZ s 200)).
  { subst cs. rewrite <- list_fmap_compose. reflexivity. }
  assert (Hrefl : Forall (fun c : Z * num => leb c.2 c.2 = true) cs).
  { subst cs. apply Forall_forall. intros c Hc.
    apply list_elem_of_fmap in Hc as (e & -> & He). apply elem_of_seqZ in He.
    apply in_range_refl, Hacc. lia. }
  destruct (recorded_all_best "" cs w (in_range_refl _ Hb) Hrefl) as [Hin Hub].
  rewrite (recorded_all_best_acc "" cs w), Hcs2 in Hin, Hub.
  split; [|split].
  - apply elem_of_cons in Hin as [Hin|Hin]; [left; exact Hin|right].
    apply list_elem_of_fmap in Hin as (e & He & Hin). apply elem_of_seqZ in Hin.
    exists e. split; [lia|exact He].
  - apply Hub. left.
  - intros e He. apply Hub. right. apply list_elem_of_fmap. exists e.
    split; [reflexivity|]. apply elem_of_seqZ. lia.
Qed.

Lemma run_ends_with_best_accuracy_witness :
  leb (test_acc scenario_data 5)
      (best_acc (snd (training_run (Args "MobileNetV2" false) scenario_data fresh_dir)))
  = true.
Proof.
  destruct (run_ends_with_best_accuracy (Args "MobileNetV2" false) scenario_data
              fresh_dir fresh_dir_files_writable) as (_ & _ & Hub).
  - intros e _. vm_compute. reflexivity.
  - split; vm_compute; reflexivity.
  - intros e _. split; vm_compute; reflexivity.
  - apply Hub. simpl. lia.
Defined.

(** ** Failures during a run *)

Section Failures.
Context {num : Type} `{Arith num}.
Implicit Types (w : world num).

Lemma train_raise bs n o e w x :
  metrics bs = Raise x ->
  fst (train bs n o e w) = Raise x /\
  files (snd (train bs n o e w)) = files w /\
  history (snd (train bs n o e w)) = history w ++ [CallTrain e].
Proof.
  intros Hm. split; [now rewrite train_result|].
  unfold train. unfold_stmt. simpl.
  destruct (for_batches locals0 0 bs) as [l|]; simpl; [|split; reflexivity].
  destruct (epoch_log l); split; reflexivity.
Qed.

Lemma epoch_body_train_raise (a : args) (data : Z -> epoch_data num) e w x :
  metrics (train_batches (data e)) = Raise x ->
  fst (epoch_body a data e w) = Raise x /\
  files (snd (epoch_body a data e w)) = files w /\
  history (snd (epoch_body a data e w)) = history w ++ [CallTrain e].
Proof.
  intros Hm.
  destruct (train_raise (train_batches (data e)) (net_after (data e))
              (optimizer_after (data e)) e w x Hm) as (Hr & Hf & Hh).
  assert (Heq : epoch_body a data e w
                = (Raise x, snd (train (train_batches (data e)) (net_after (data e))
                                   (optimizer_after (data e)) e w))).
  { unfold epoch_body. cbv zeta. unfold bind at 1.
    destruct (train _ _ _ e w) as [[v|x'] w']; cbn [fst snd] in *; [discriminate|].
    now injection Hr as ->. }
  rewrite Heq. cbn [fst snd]. auto.
Qed.

Lemma for_each_app es1 es2 (body : Z -> stmt num unit) w :
  for_each (es1 ++ es2) body w =
  match for_each es1 body w with
  | (Ok _, w') => for_each es2 body w'
  | (Raise x, w') => (Raise x, w')
  end.
Proof.
  revert w. induction es1 as [|e es1 IH]; intros w; simpl; [reflexivity|].
  unfold bind. destruct (body e w) as [[[]|x] w']; [apply IH|reflexivity].
Qed.

Lemma exports_bound w m :
  model w = Some m -> dir_exists w = true ->
  read_only w "model.pth" = false -> read_only w "weights.pth" = false ->
  exports w =
  (Ok tt, set_files (<["weights.pth" := [Object (params m)]]>
                     (<["model.pth" := [Object (whole m)]]> (files w))) w).
Proof.
  intros Hm Hd H1 H2. unfold exports. unfold_stmt.
  rewrite Hm. simpl. rewrite Hd, H1. simpl. rewrite Hm. simpl. rewrite H2. reflexivity.
Qed.

End Failures.

(** X10: when the training pass of an epoch raises, the loop raises the same
    exception and the run is over: the epochs before it are complete, with
    their rows in the log, and for the failing epoch nothing was written --
    no row, no checkpoint -- and [test] was not called. *)
Theorem failed_training_pass_stops_the_run {num : Type} `{Arith num}
    (a : args) (data : Z -> epoch_data num) (pre post : list Z) (e : Z) (x : exn)
    (w : world num) :
  core_writable w ->
  Forall (fun e' => good_epoch data e' = true) pre ->
  metrics (train_batches (data e)) = Raise x ->
  let r := for_each (pre ++ e :: post) (epoch_body a data) w in
  fst r = Raise x /\
  files (snd r) = files (epochs_done a data pre w) /\
  history (snd r) = history w ++ flat_map epoch_calls pre ++ [CallTrain e] /\
  (forall rows, files w !! "train_log.csv" = Some rows ->
     files (snd r) !! "train_log.csv"
     = Some (rows ++ map (fun e' => CsvRow (epoch_row data e')) pre)).
Proof.
  intros Hw Hpre Hm r. subst r. rewrite for_each_app.
  rewrite (for_each_run a data pre w Hw Hpre). cbn [for_each]. unfold bind.
  destruct (epoch_body_train_raise a data e (epochs_done a data pre w) x Hm)
    as (Hr & Hf & Hh).
  destruct (epoch_body a data e (epochs_done a data pre w)) as [[v|x'] w'];
    simpl in Hr, Hf, Hh; [discriminate|].
  injection Hr as ->. cbn [fst snd]. split; [reflexivity|]. split; [exact Hf|].
  split.
  - rewrite Hh, (epochs_done_history a data pre w Hpre). now rewrite app_assoc.
  - intros rows Hrows. rewrite Hf. now apply epochs_done_log.
Qed.

(** Epoch 3 has an empty training loader. *)
Definition broken_data : Z -> epoch_data float :=
  fun e => if e =? 3 then Epoch_data [] "net1" "sgd1" scenario 1.0%float
           else scenario_data e.

Lemma failed_training_pass_stops_the_run_witness :
  fst (for_each ([0; 1; 2] ++ 3 :: [4; 5])
         (epoch_body (Args "MobileNetV2" false) broken_data) fresh_dir)
  = Raise (UnboundLocalError "batch_idx").
Proof.
  destruct (failed_training_pass_stops_the_run (Args "MobileNetV2" false) broken_data
              [0; 1; 2] [4; 5] 3 (UnboundLocalError "batch_idx") fresh_dir
              fresh_dir_core_writable) as (Hraise & _).
  - repeat constructor; vm_compute; reflexivity.
  - reflexivity.
  - exact Hraise.
Defined.

(** X11: if [train_log.csv] cannot be opened for writing, lines 186-203 raise
    at [open] before the first epoch: nothing is trained and no file is
    changed, though the directory has been made by then. *)
Theorem unwritable_log_stops_before_training {num : Type} `{Arith num}
    (a : args) (data : Z -> epoch_data num) (w : world num) :
  read_only w "train_log.csv" = true ->
  let r := training_run a data w in
  fst r = Raise (OSError "train_log.csv") /\
  dir_exists (snd r) = true /\ files (snd r) = files w /\
  history (snd r) = history w /\ net (snd r) = net w.
Proof.
  intros Hro r. subst r. unfold training_run. unfold_stmt. simpl.
  destruct (dir_exists w) eqn:Hd; simpl; rewrite ?Hd, Hro; simpl; repeat split.
  exact Hd.
Qed.

Lemma unwritable_log_stops_before_training_witness :
  fst (training_run (Args "MobileNetV2" false) scenario_data
         (World ∅ false (fun p => String.eqb p "train_log.csv") [] 0%float 0
            "net0" "sgd0" None []))
  = Raise (OSError "train_log.csv").
Proof.
  destruct (unwritable_log_stops_before_training (Args "MobileNetV2" false)
              scenario_data
              (World ∅ false (fun p => String.eqb p "train_log.csv") [] 0%float 0
                 "net0" "sgd0" None [])) as (Hraise & _).
  - reflexivity.
  - exact Hraise.
Defined.

(** X12: were the name [model] bound (to an object of the star import) and
    the two export files writable, a best epoch would write the object to
    [model.pth] and its parameters to [weights.pth] and print no warning; the
    object saved is [model], not the network [net] that was trained. *)
Theorem bound_model_is_exported {num : Type} `{Arith num}
    (arch : string) (epoch : Z) (acc : num) (m : module_obj) (w : world num) :
  core_writable w -> model w = Some m ->
  read_only w "model.pth" = false -> read_only w "weights.pth" = false ->
  gtb acc (best_acc w) = true ->
  let w' := snd (record arch epoch acc w) in
  files w' !! "model.pth" = Some [Object (whole m)] /\
  files w' !! "weights.pth" = Some [Object (params m)] /\
  stdout w' = stdout w /\
  (exists st : dict num,
     files w' !! "checkpoint.pth.tar" = Some [Pickled st] /\
     st !! "state_dict" = Some (PBlob (net w))).
Proof.
  intros Hw Hm H1 H2 Hb w'. subst w'.
  rewrite (record_run arch epoch acc w Hw). cbn [snd].
  destruct (recorded_files arch epoch acc w) as (Hc & _).
  destruct (recorded_state_fields arch epoch acc w) as (_ & _ & Hs & _).
  assert (Hd : dir_exists w = true) by apply Hw.
  assert (Hexp : forall p, (p = "model.pth" \/ p = "weights.pth") ->
            files (recorded arch epoch acc w) !! p
            = (<["weights.pth" := [Object (params m)]]>
                 (<["model.pth" := [Object (whole m)]]> (files w))) !! p).
  { intros p Hp. unfold recorded. cbv zeta. rewrite Hb.
    unfold after_exports.
    rewrite (exports_bound (set_best_acc (py_max acc (best_acc w)) w) m Hm Hd H1 H2).
    unfold set_files, set_history. cbn [snd files].
    rewrite saved_files_lookup.
    rewrite decide_False
      by (intros [Hk _];
          destruct (snapshot_name_fresh (epoch + 1 - 1)) as (_ & _ & ? & ? & _);
          destruct Hp; congruence).
    rewrite decide_False by (intros [? _]; destruct Hp; subst; discriminate).
    rewrite decide_False by (destruct Hp; subst; discriminate).
    reflexivity. }
  split; [rewrite Hexp by auto; rewrite lookup_insert_ne by discriminate;
          apply lookup_insert_eq|].
  split; [rewrite Hexp by auto; apply lookup_insert_eq|].
  split.
  - rewrite recorded_stdout, Hb. unfold export_warnings, export_fails, can_write.
    rewrite Hm, Hd, H1, H2. simpl. apply app_nil_r.
  - eauto.
Qed.

Lemma bound_model_is_exported_witness :
  let w := World ∅ true (fun _ => false) [] 0%float 0 "net0" "sgd0"
             (Some (Module_obj "other" "other_params")) [] in
  files (snd (record "MobileNetV2" 0 85.0%float w)) !! "model.pth"
  = Some [Object "other"].
Proof.
  intros w.
  destruct (bound_model_is_exported "MobileNetV2" 0 85.0%float
              (Module_obj "other" "other_params") w) as (Hfile & _).
  - repeat split.
  - reflexivity.
  - reflexivity.
  - reflexivity.
  - vm_compute. reflexivity.
  - exact Hfile.
Defined.

(** ** More on best epochs and snapshots *)

Lemma recorded_all_keeps_snapshot {num : Type} `{Arith num} arch
    (cs : list (Z * num)) (k : Z) : forall w : world num,
  k ∉ cs.*1 ->
  files (recorded_all arch cs w) !! snapshot_name k = files w !! snapshot_name k.
Proof.
  induction cs as [|c cs IH]; intros w Hk; simpl; [reflexivity|].
  simpl in Hk. apply not_elem_of_cons in Hk as [Hne Hk].
  rewrite (IH _ Hk). destruct (recorded_files arch c.1 c.2 w) as (_ & _ & Hs & _).
  rewrite Hs. now rewrite decide_False by tauto.
Qed.

(** X13: the snapshot of an epoch outlives the epochs after it: whatever
    calls follow, as long as none is for the same epoch number, the file still
    holds the dict of that epoch; a later call for the same number (a new run
    in the same directory) replaces it. *)
Theorem snapshot_survives_later_epochs {num : Type} `{Arith num}
    (arch : string) (epoch : Z) (acc acc' : num) (post : list (Z * num))
    (w : world num) :
  core_writable w -> epoch mod 10 = 0 -> epoch ∉ post.*1 ->
  let w1 := snd (record arch epoch acc w) in
  let w2 := snd (records arch post w1) in
  files w2 !! snapshot_name epoch = Some [Pickled (recorded_state arch epoch acc w)] /\
  files (snd (record arch epoch acc' w2)) !! snapshot_name epoch
  = Some [Pickled (recorded_state arch epoch acc' w2)].
Proof.
  intros Hw Hz Hpost w1 w2. subst w2 w1.
  rewrite (record_run arch epoch acc w Hw). cbn [snd].
  pose proof (recorded_core_writable arch epoch acc w Hw) as Hw1.
  rewrite (records_run arch post _ Hw1). cbn [snd].
  pose proof (recorded_all_core_writable arch post _ Hw1) as Hw2.
  rewrite (record_run arch epoch acc' _ Hw2). cbn [snd].
  split.
  - rewrite (recorded_all_keeps_snapshot arch post epoch _ Hpost).
    destruct (recorded_files arch epoch acc w) as (_ & _ & Hs & _).
    rewrite Hs. now rewrite decide_True by tauto.
  - match goal with |- files (recorded ?ar ?ep ?ac ?w0) !! _ = _ =>
      destruct (recorded_files ar ep ac w0) as (_ & _ & Hs & _) end.
    rewrite Hs. now rewrite decide_True by tauto.
Qed.

Lemma snapshot_survives_later_epochs_witness :
  files (snd (records "MobileNetV2" [(11, 60.0%float); (12, 70.0%float)]
                (snd (record "MobileNetV2" 10 50.0%float fresh_dir))))
    !! snapshot_name 10
  = Some [Pickled (recorded_state "MobileNetV2" 10 50.0%float fresh_dir)].
Proof.
  destruct (snapshot_survives_later_epochs "MobileNetV2" 10 50.0%float 50.0%float
              [(11, 60.0%float); (12, 70.0%float)] fresh_dir fresh_dir_core_writable)
    as (Hkeep & _).
  - reflexivity.
  - simpl. rewrite !not_elem_of_cons. repeat split; try lia. apply not_elem_of_nil.
  - exact Hkeep.
Defined.

(** X14: on a best epoch the new best accuracy is the accuracy of the epoch
    itself, and that is the value the checkpoint and [model_best.pth.tar]
    record as [best_acc1]. *)
Theorem best_epoch_records_its_accuracy {num : Type} `{ArithOrder num}
    (arch : string) (epoch : Z) (acc : num) (w : world num) :
  core_writable w -> leb acc acc = true -> leb (best_acc w) (best_acc w) = true ->
  gtb acc (best_acc w) = true ->
  let w' := snd (record arch epoch acc w) in
  best_acc w' = acc /\
  exists st : dict num,
    files w' !! "checkpoint.pth.tar" = Some [Pickled st] /\
    files w' !! "model_best.pth.tar" = Some [Pickled st] /\
    st !! "best_acc1" = Some (PFloat acc) /\
    st !! "epoch" = Some (PInt (epoch + 1)).
Proof.
  intros Hw Ha Hb Hgt w'. subst w'.
  assert (Hmax : py_max acc (best_acc w) = acc).
  { unfold py_max. rewrite (gtb_leb _ _ Hb Ha).
    rewrite (gtb_leb _ _ Ha Hb) in Hgt. apply negb_true_iff in Hgt.
    destruct (leb_total acc (best_acc w) Ha Hb) as [Hle|Hle]; [congruence|].
    now rewrite Hle. }
  rewrite (record_run arch epoch acc w Hw). cbn [snd].
  destruct (recorded_frame arch epoch acc w) as (_ & _ & Hbest & _).
  destruct (recorded_files arch epoch acc w) as (Hc & Hmb & _).
  destruct (recorded_state_fields arch epoch acc w) as (He & _ & _ & Hb1 & _).
  split; [now rewrite Hbest|].
  exists (recorded_state arch epoch acc w).
  rewrite Hmb, Hgt, Hmax in *. auto.
Qed.

Lemma best_epoch_records_its_accuracy_witness :
  best_acc (snd (record "MobileNetV2" 0 85.0%float fresh_dir)) = 85.0%float.
Proof.
  destruct (best_epoch_records_its_accuracy "MobileNetV2" 0 85.0%float fresh_dir
              fresh_dir_core_writable) as (Hbest & _).
  - vm_compute. reflexivity.
  - vm_compute. reflexivity.
  - vm_compute. reflexivity.
  - exact Hbest.
Defined.

(** X15: if [model_best.pth.tar] cannot be written, a best epoch raises at
    the copy (the error is not caught); by then the rolling checkpoint already
    records the new best accuracy, while [model_best.pth.tar] is still the old
    file. *)
Theorem failed_promotion_leaves_stale_model_best {num : Type} `{Arith num}
    (arch : string) (epoch : Z) (acc : num) (w : world num) :
  dir_exists w = true -> read_only w "checkpoint.pth.tar" = false ->
  read_only w "model_best.pth.tar" = true ->
  gtb acc (best_acc w) = true ->
  let r := record arch epoch acc w in
  fst r = Raise (OSError "model_best.pth.tar") /\
  files (snd r) !! "model_best.pth.tar" = files w !! "model_best.pth.tar" /\
  best_acc (snd r) = py_max acc (best_acc w) /\
  exists st : dict num,
    files (snd r) !! "checkpoint.pth.tar" = Some [Pickled st] /\
    st !! "best_acc1" = Some (PFloat (py_max acc (best_acc w))).
Proof.
  intros Hd Hc Hmb Hgt r. subst r. rewrite record_unfold. cbv zeta. rewrite Hgt.
  set (w0 := set_best_acc (py_max acc (best_acc w)) w).
  destruct (after_exports_frame true w0)
    as (Hd1 & Hr1 & Hb1 & _ & Hn1 & Ho1 & _ & _ & Hf1).
  rewrite (checkpoint_state_ext epoch arch w0 _ Hn1 Hb1 Ho1).
  assert (Hst : checkpoint_state epoch arch w0 !! "best_acc1"
                = Some (PFloat (py_max acc (best_acc w)))).
  { unfold checkpoint_state. repeat (rewrite lookup_insert_ne by discriminate).
    apply lookup_insert_eq. }
  set (st := checkpoint_state epoch arch w0) in *.
  assert (Hmb1 : files (after_exports true w0) !! "model_best.pth.tar"
                 = files w !! "model_best.pth.tar") by (now rewrite Hf1).
  set (w1 := after_exports true w0) in *.
  assert (Hd1' : dir_exists w1 = true) by (rewrite Hd1; exact Hd).
  assert (Hc1 : read_only w1 "checkpoint.pth.tar" = false) by (now rewrite Hr1).
  assert (Hm1 : read_only w1 "model_best.pth.tar" = true) by (now rewrite Hr1).
  assert (Hbest : best_acc w1 = py_max acc (best_acc w)) by (now rewrite Hb1).
  clearbody w1 st.
  unfold save_checkpoint. unfold_stmt. simpl. rewrite Hd1', Hc1. simpl.
  rewrite lookup_insert_eq. simpl. rewrite Hm1. simpl.
  split; [reflexivity|]. split; [now rewrite lookup_insert_ne by discriminate|].
  split; [exact Hbest|]. exists st. split; [apply lookup_insert_eq|exact Hst].
Qed.

Lemma failed_promotion_leaves_stale_model_best_witness :
  fst (record "MobileNetV2" 0 85.0%float
         (World ∅ true (fun p => String.eqb p "model_best.pth.tar") [] 0%float 0
            "net0" "sgd0" None []))
  = Raise (OSError "model_best.pth.tar").
Proof.
  destruct (failed_promotion_leaves_stale_model_best "MobileNetV2" 0 85.0%float
              (World ∅ true (fun p => String.eqb p "model_best.pth.tar") [] 0%float 0
                 "net0" "sgd0" None [])) as (Hraise & _).
  - reflexivity.
  - reflexivity.
  - reflexivity.
  - vm_compute. reflexivity.
  - exact Hraise.
Defined.
